(** * BUAS dashboard: the client-side synchronisation engine

    A shallow embedding of [frontend/src/services/api.js],
    [frontend/src/components/Dashboard.js] and the [UserList] component,
    and the properties of the polling loop, the command handlers, the
    device filter and the audio overlay that follow from the code.

    JavaScript values are modelled as the code uses them: an optional
    property is an [option], [a || b] and [if (a)] go through [truthy],
    an [async] function is a program of the [Prog] type below whose
    [Fetch] nodes are its suspension points, and React state is a record
    updated by the setters.  Strings are held as their UTF-8 bytes; the
    Unicode case mapping of the engine is a parameter of the code that
    calls [toLowerCase]; the one subtraction of time values is rounded
    to a double as the engine rounds it. *)

From Stdlib Require Import ZArith List String Ascii Bool Lia DecimalString.
Import ListNotations.
Open Scope string_scope.

(** ** JavaScript basics *)

(** Truthiness of an optional string: [undefined], [null] and the empty
    string are falsy. *)
Definition truthy (o : option string) : bool :=
  match o with
  | Some (String _ _) => true
  | _ => false
  end.

(** [o || d] for an optional string [o] and a string [d]. *)
Definition or_else (o : option string) (d : string) : string :=
  match o with
  | Some (String c s) => String c s
  | _ => d
  end.

(** [o === s] for an optional string [o] and a string literal [s]. *)
Definition strict_eq (o : option string) (s : string) : bool :=
  match o with
  | Some v => String.eqb v s
  | None => false
  end.

(** Template-literal rendering of a number. *)
Definition number_to_string (z : Z) : string :=
  NilZero.string_of_int (Z.to_int z).

(** A [Date] object, carrying the text [toISOString] gives for it. *)
Record Date := mkDate { epoch_ms : Z; toISOString : string }.

(** A thrown [Error], identified with its [message]. *)
Definition Error := string.

(** ** The wire payload *)

Record User := mkUser {
  user_id : string;
  device_name : option string;
  status : string;
  latest_audio : option string
}.

Record Stats := mkStats {
  stats_total_users : Z;
  stats_active_sessions : Z;
  stats_total_recordings : Z
}.

(** The object [/api/dashboard-data] answers with; every property may be
    missing. *)
Record DashboardData := mkDashboardData {
  active_sessions_count : option Z;
  total_users : option Z;
  connection_status : option string;
  users : option (list User);
  active_sessions : option (list string);
  stats : option Stats;
  error_message : option string;
  last_updated : option string
}.

(** What [response.json()] resolves to: [null], or an object.  (A body
    that is a number, a string or an array reads as an object with every
    property missing, for the property reads the code makes.) *)
Inductive Json :=
| JNull
| JObject (d : DashboardData).

(** What one [fetch] call ends in: the promise rejects, or it resolves
    to a response with a status and a body that parses or not. *)
Inductive Body :=
| BadJson (msg : Error)
| GoodJson (j : Json).

Inductive FetchOutcome :=
| NetworkError (msg : Error)
| Response (status_code : Z) (body : Body).

(** [response.ok]: the status is in the range 200-299. *)
Definition response_ok (status_code : Z) : bool :=
  ((200 <=? status_code) && (status_code <=? 299))%Z.

Inductive Method := GET | POST.

(** ** React state of [Dashboard] and the effects of its code *)

Record Audio := mkAudio {
  audio_url : string;
  audio_user : string;
  audio_filename : string
}.

Record UIState := mkUI {
  dashboardData : Json;
  loading : bool;
  error : option string;
  isPolling : bool;
  lastUpdated : option Date;
  connectionStatus : string;
  currentAudio : option Audio
}.

Inductive LogEntry :=
| LogError (msg : string) (e : Error)
| LogWarn (msg : string).

Inductive Action :=
| SetDashboardData (j : Json)
| SetLoading (b : bool)
| SetError (e : option string)
| SetIsPolling (b : bool)
| SetLastUpdated (d : Date)
| SetConnectionStatus (s : string)
| SetCurrentAudio (a : option Audio)
| ConsoleError (msg : string) (e : Error)
| ConsoleWarn (msg : string).

(** An [async] function body.  [Fetch] is the [await fetch(url, config)]
    suspension point: the rest of the function waits in [k] for the
    outcome of the request. *)
Inductive Prog (A : Type) : Type :=
| Ret (a : A)
| Throw (e : Error)
| Do (act : Action) (k : Prog A)
| NewDate (k : Date -> Prog A)
| Fetch (url : string) (m : Method) (k : FetchOutcome -> Prog A).

Arguments Ret {A} a.
Arguments Throw {A} e.
Arguments Do {A} act k.
Arguments NewDate {A} k.
Arguments Fetch {A} url m k.

Fixpoint bind {A B : Type} (p : Prog A) (f : A -> Prog B) : Prog B :=
  match p with
  | Ret a => f a
  | Throw e => Throw e
  | Do act k => Do act (bind k f)
  | NewDate k => NewDate (fun d => bind (k d) f)
  | Fetch url m k => Fetch url m (fun o => bind (k o) f)
  end.

(** [try { p } catch (e) { h e }] *)
Fixpoint try_catch {A : Type} (p : Prog A) (h : Error -> Prog A) : Prog A :=
  match p with
  | Ret a => Ret a
  | Throw e => h e
  | Do act k => Do act (try_catch k h)
  | NewDate k => NewDate (fun d => try_catch (k d) h)
  | Fetch url m k => Fetch url m (fun o => try_catch (k o) h)
  end.

(** [try { p } finally { fin }] *)
Fixpoint try_finally {A : Type} (p : Prog A) (fin : Prog unit) : Prog A :=
  match p with
  | Ret a => bind fin (fun _ => Ret a)
  | Throw e => bind fin (fun _ => Throw e)
  | Do act k => Do act (try_finally k fin)
  | NewDate k => NewDate (fun d => try_finally (k d) fin)
  | Fetch url m k => Fetch url m (fun o => try_finally (k o) fin)
  end.

Declare Scope prog_scope.
Delimit Scope prog_scope with prog.
Notation "x <- p ;; q" := (bind p (fun x => q))
  (at level 61, p at next level, right associativity) : prog_scope.
Notation "a ;;; k" := (Do a k)
  (at level 61, right associativity) : prog_scope.
Open Scope prog_scope.

(** ** services/api.js *)

(** The properties of [process.env] the code reads. *)
Record Env := mkEnv {
  NODE_ENV : option string;
  REACT_APP_VPS_URL : option string;
  REACT_APP_API_URL : option string
}.

Definition getApiUrl (env : Env) : string :=
  if strict_eq (NODE_ENV env) "production"
  then or_else (REACT_APP_VPS_URL env) "http://143.244.133.125:5000"
  else or_else (REACT_APP_API_URL env) "http://localhost:5000".

Definition API_BASE_URL (env : Env) : string := getApiUrl env.

Definition dashboard_endpoint : string := "/api/dashboard-data".

(** The object [request] returns for the dashboard endpoint when the
    request failed with [e], built at local time [now]. *)
Definition fallback_data (e : Error) (now : Date) : DashboardData :=
  {| active_sessions_count := Some 0%Z;
     total_users := Some 0%Z;
     connection_status := Some "error";
     users := Some [];
     active_sessions := Some [];
     stats := Some (mkStats 0 0 0);
     error_message := Some e;
     last_updated := Some (toISOString now) |}.

(** [ApiService.request(endpoint, { method })] of the instance whose
    [baseURL] is [baseURL].  The headers of [config] do not influence
    the control flow and are left out. *)
Definition request (baseURL endpoint : string) (m : Method) : Prog Json :=
  let url := baseURL ++ endpoint in
  try_catch
    (Fetch url m (fun o =>
       match o with
       | NetworkError e => Throw e
       | Response code body =>
           if negb (response_ok code)
           then Throw ("HTTP error! status: " ++ number_to_string code)
           else match body with
                | BadJson e => Throw e
                | GoodJson j => Ret j
                end
       end))
    (fun e =>
       ConsoleError ("API request failed for " ++ endpoint ++ ":") e ;;;
       if String.eqb endpoint dashboard_endpoint
       then NewDate (fun now => Ret (JObject (fallback_data e now)))
       else Throw e).

Definition getDashboardData (baseURL : string) : Prog Json :=
  request baseURL dashboard_endpoint GET.

Definition getHealthCheck (baseURL : string) : Prog Json :=
  request baseURL "/api/health" GET.

Definition startListening (baseURL userId : string) : Prog Json :=
  request baseURL ("/api/start-listening/" ++ userId) POST.

Definition stopListening (baseURL userId : string) : Prog Json :=
  request baseURL ("/api/stop-listening/" ++ userId) POST.

Definition getLatestAudio (baseURL deviceId : string) : Prog Json :=
  request baseURL ("/api/audio/" ++ deviceId ++ "/latest") GET.

(** ** components/Dashboard.js *)

(** [data.connection_status]: reading a property of [null] throws. *)
Definition read_connection_status (data : Json) : Prog (option string) :=
  match data with
  | JNull =>
      Throw "Cannot read properties of null (reading 'connection_status')"
  | JObject d => Ret (connection_status d)
  end.

Definition fetchDashboardData (baseURL : string) : Prog unit :=
  try_finally
    (try_catch
       (_ <- try_catch
               (_ <- getHealthCheck baseURL ;; Ret tt)
               (fun healthError =>
                  ConsoleWarn
                    "Health check failed, but attempting dashboard data fetch..." ;;;
                  Ret tt) ;;
        data <- getDashboardData baseURL ;;
        SetDashboardData data ;;;
        cs <- read_connection_status data ;;
        SetConnectionStatus (or_else cs "connected") ;;;
        NewDate (fun now =>
        SetLastUpdated now ;;;
        SetError None ;;;
        Ret tt))
       (fun err =>
          ConsoleError "Failed to fetch dashboard data:" err ;;;
          SetError (Some err) ;;;
          SetConnectionStatus "error" ;;;
          Ret tt))
    (SetLoading false ;;; Ret tt).

Definition handleStartListening (baseURL userId : string) : Prog unit :=
  try_catch
    (_ <- startListening baseURL userId ;;
     fetchDashboardData baseURL)
    (fun err => ConsoleError "Failed to start listening:" err ;;; Ret tt).

Definition handleStopListening (baseURL userId : string) : Prog unit :=
  try_catch
    (_ <- stopListening baseURL userId ;;
     fetchDashboardData baseURL)
    (fun err => ConsoleError "Failed to stop listening:" err ;;; Ret tt).

(** [s.split('/').pop()]: what follows the last slash of [s], or all of
    [s] when it has none.  [acc] is the segment read so far. *)
Fixpoint last_segment_from (acc s : string) : string :=
  match s with
  | EmptyString => acc
  | String c rest =>
      if Ascii.eqb c "/"%char
      then last_segment_from EmptyString rest
      else last_segment_from (acc ++ String c EmptyString) rest
  end.

Definition last_segment (s : string) : string :=
  last_segment_from EmptyString s.

(** The origin [handlePlayAudio] prefixes to the audio path. *)
Definition playback_base_url (env : Env) : string :=
  if strict_eq (NODE_ENV env) "production"
  then "http://143.244.133.125:5000"
  else "http://localhost:5000".

Definition handlePlayAudio (env : Env) (user : User) : Prog unit :=
  try_catch
    (match latest_audio user with
     | Some (String c s) =>
         let path := String c s in
         let apiBaseUrl := playback_base_url env in
         SetCurrentAudio
           (Some {| audio_url := apiBaseUrl ++ path;
                    audio_user := user_id user;
                    audio_filename := last_segment path |}) ;;;
         Ret tt
     | _ => Ret tt
     end)
    (fun err => ConsoleError "Failed to play audio:" err ;;; Ret tt).

Definition handleCloseAudio : Prog unit :=
  SetCurrentAudio None ;;; Ret tt.

(** ** The event loop *)

(** A request that has been sent and not yet answered, with the rest of
    the [async] function that awaits it. *)
Record Pending := mkPending {
  pending_url : string;
  pending_method : Method;
  pending_k : FetchOutcome -> Prog unit
}.

Record World := mkWorld {
  ui : UIState;
  console : list LogEntry;
  interval : bool;
  in_flight : list Pending
}.

Definition set_ui (f : UIState -> UIState) (w : World) : World :=
  let '(mkWorld s c i l) := w in mkWorld (f s) c i l.

Definition log (e : LogEntry) (w : World) : World :=
  let '(mkWorld s c i l) := w in mkWorld s (c ++ [e]) i l.

Definition set_interval (b : bool) (w : World) : World :=
  let '(mkWorld s c i l) := w in mkWorld s c b l.

Definition set_in_flight (l : list Pending) (w : World) : World :=
  let '(mkWorld s c i _) := w in mkWorld s c i l.

(** The setters of the [useState] hooks, and the console. *)
Definition update (a : Action) (s : UIState) : UIState :=
  let '(mkUI data ld err pol upd conn aud) := s in
  match a with
  | SetDashboardData j => mkUI j ld err pol upd conn aud
  | SetLoading b => mkUI data b err pol upd conn aud
  | SetError e => mkUI data ld e pol upd conn aud
  | SetIsPolling b => mkUI data ld err b upd conn aud
  | SetLastUpdated d => mkUI data ld err pol (Some d) conn aud
  | SetConnectionStatus c => mkUI data ld err pol upd c aud
  | SetCurrentAudio a' => mkUI data ld err pol upd conn a'
  | ConsoleError _ _ | ConsoleWarn _ => s
  end.

Definition apply_action (a : Action) (w : World) : World :=
  match a with
  | ConsoleError msg e => log (LogError msg e) w
  | ConsoleWarn msg => log (LogWarn msg) w
  | _ => set_ui (update a) w
  end.

(** How far a program gets without waiting: it returns, throws, or stops
    at a [fetch]. *)
Inductive Status (A : Type) : Type :=
| Returned (a : A)
| Threw (e : Error)
| Awaiting (url : string) (m : Method) (k : FetchOutcome -> Prog A).

Arguments Returned {A} a.
Arguments Threw {A} e.
Arguments Awaiting {A} url m k.

(** Run [p] at local time [now] up to its next suspension point. *)
Fixpoint run {A : Type} (p : Prog A) (now : Date) (w : World)
  : World * Status A :=
  match p with
  | Ret a => (w, Returned a)
  | Throw e => (w, Threw e)
  | Do act k => run k now (apply_action act w)
  | NewDate k => run (k now) now w
  | Fetch url m k => (w, Awaiting url m k)
  end.

(** Call an [async] function from an event handler: it runs to its first
    [await]; the request it waits for joins the ones in flight.  The
    promise it returns is dropped by every caller. *)
Definition spawn (p : Prog unit) (now : Date) (w : World) : World :=
  match run p now w with
  | (w', Awaiting url m k) =>
      set_in_flight (in_flight w' ++ [mkPending url m k]) w'
  | (w', _) => w'
  end.

Fixpoint remove_nth {A : Type} (i : nat) (l : list A) : list A :=
  match l, i with
  | [], _ => []
  | _ :: t, O => t
  | x :: t, S j => x :: remove_nth j t
  end.

(** The state [useState] starts from, before the first effect runs. *)
Definition initial_ui : UIState :=
  {| dashboardData := JNull; loading := true; error := None;
     isPolling := true; lastUpdated := None;
     connectionStatus := "connecting"; currentAudio := None |}.

Definition initial_world : World :=
  {| ui := initial_ui; console := []; interval := false; in_flight := [] |}.

(** The body of the polling [useEffect], for the current [isPolling]. *)
Definition polling_effect (baseURL : string) (now : Date) (w : World) : World :=
  if isPolling (ui w)
  then set_interval true (spawn (fetchDashboardData baseURL) now w)
  else w.

(** The function the polling [useEffect] returned the last time it ran. *)
Definition polling_cleanup (w : World) : World :=
  if interval w then set_interval false w else w.

Inductive Event :=
| Mount
| Tick
| Resolve (i : nat) (o : FetchOutcome)
| TogglePolling
| StartListening (userId : string)
| StopListening (userId : string)
| PlayAudio (user : User)
| CloseAudio.

(** One turn of the event loop at local time [now]. *)
Definition step (env : Env) (ev : Event) (now : Date) (w : World) : World :=
  let baseURL := API_BASE_URL env in
  match ev with
  | Mount => polling_effect baseURL now w
  | Tick =>
      if interval w then spawn (fetchDashboardData baseURL) now w else w
  | Resolve i o =>
      match nth_error (in_flight w) i with
      | Some p =>
          spawn (pending_k p o) now
            (set_in_flight (remove_nth i (in_flight w)) w)
      | None => w
      end
  | TogglePolling =>
      let w1 := apply_action (SetIsPolling (negb (isPolling (ui w)))) w in
      polling_effect baseURL now (polling_cleanup w1)
  | StartListening userId => spawn (handleStartListening baseURL userId) now w
  | StopListening userId => spawn (handleStopListening baseURL userId) now w
  | PlayAudio user => spawn (handlePlayAudio env user) now w
  | CloseAudio => spawn handleCloseAudio now w
  end.

Fixpoint steps (env : Env) (evs : list (Event * Date)) (w : World) : World :=
  match evs with
  | [] => w
  | (ev, now) :: rest => steps env rest (step env ev now w)
  end.

(** [dashboardData?.users || []], the list handed to [UserList]. *)
Definition displayed_users (s : UIState) : list User :=
  match dashboardData s with
  | JObject d => match users d with Some l => l | None => [] end
  | JNull => []
  end.

(** A request failed: the promise rejected, or the status is not 2xx. *)
Definition failed (o : FetchOutcome) : bool :=
  match o with
  | NetworkError _ => true
  | Response code _ => negb (response_ok code)
  end.

(** The message of the error [request] catches for a failed request. *)
Definition failure_message (o : FetchOutcome) : Error :=
  match o with
  | NetworkError e => e
  | Response code _ => "HTTP error! status: " ++ number_to_string code
  end.

(** A request succeeded with the object [d] as its body. *)
Definition ok_with (d : DashboardData) : FetchOutcome :=
  Response 200 (GoodJson (JObject d)).

(** ** The UserList component *)

(** Strings are held as their UTF-8 bytes.  The bytes below 128 are the
    ASCII characters; among them [A] to [Z] (codes 65 to 90) are the
    upper-case letters. *)
Definition is_upper (c : ascii) : bool :=
  ((65 <=? nat_of_ascii c) && (nat_of_ascii c <=? 90))%nat.


(** The ASCII part of lower-casing: [A] to [Z] move to [a] to [z], every
    other byte is kept. *)
Definition fold_ascii_char (c : ascii) : ascii :=
  if is_upper c then ascii_of_nat (nat_of_ascii c + 32) else c.

Fixpoint fold_ascii (s : string) : string :=
  match s with
  | EmptyString => EmptyString
  | String c rest => String (fold_ascii_char c) (fold_ascii rest)
  end.

(** [s.includes(t)]: [t] starts at some position of [s]. *)
Fixpoint includes (s t : string) : bool :=
  if String.prefix t s then true
  else match s with
       | EmptyString => false
       | String _ rest => includes rest t
       end.

Section CaseMapping.

(** What [String.prototype.toLowerCase] does to the characters beyond
    ASCII is the Unicode case mapping of the JavaScript engine, which is
    not part of the repository: it is the parameter [unicode_lower],
    the lower-casing of a text whose ASCII letters are lowered already. *)
Variable unicode_lower : string -> string.

(** [s.toLowerCase()] *)
Definition toLowerCase (s : string) : string :=
  unicode_lower (fold_ascii s).

(** The callback of the search [filter]. *)
Definition search_callback (searchTerm : string) (user : User) : bool :=
  includes (toLowerCase (user_id user)) (toLowerCase searchTerm)
  || match device_name user with
     | Some (String c s) =>
         includes (toLowerCase (String c s)) (toLowerCase searchTerm)
     | _ => false
     end.

Definition filteredUsers (users : list User) (searchTerm statusFilter : string)
  : list User :=
  let filtered := users in
  let filtered :=
    match searchTerm with
    | String _ _ => filter (search_callback searchTerm) filtered
    | EmptyString => filtered
    end in
  let filtered :=
    if negb (String.eqb statusFilter "all")
    then filter (fun user => String.eqb (status user) statusFilter) filtered
    else filtered in
  filtered.

(** *** The matching rule as the specification words it *)

(** [term] is a substring of [s] when case is ignored: with both in
    lower case, [term] occurs in [s]. *)
Definition occurs_ignoring_case (term s : string) : Prop :=
  exists pre post, toLowerCase s = pre ++ toLowerCase term ++ post.

Definition spec_matches_search (term : string) (u : User) : Prop :=
  occurs_ignoring_case term (user_id u)
  \/ exists label,
       device_name u = Some label /\ occurs_ignoring_case term label.



End CaseMapping.


(** *** Ignoring case, character by character *)




(** ** What one request ends in *)

(** The error the [try] block of [request] throws for an outcome, if any:
    a rejected [fetch], a response that is not [ok], or a body that does
    not parse. *)
Definition request_error (o : FetchOutcome) : option Error :=
  match o with
  | NetworkError e => Some e
  | Response code body =>
      if negb (response_ok code)
      then Some ("HTTP error! status: " ++ number_to_string code)
      else match body with
           | BadJson e => Some e
           | GoodJson _ => None
           end
  end.

(** What the health probe of one poll writes to the console. *)
Definition health_log (h : FetchOutcome) : list LogEntry :=
  match request_error h with
  | Some e =>
      [LogError "API request failed for /api/health:" e;
       LogWarn "Health check failed, but attempting dashboard data fetch..."]
  | None => []
  end.

(** The requests in flight, as (url, method) pairs. *)
Definition requests_in_flight (w : World) : list (string * Method) :=
  map (fun p => (pending_url p, pending_method p)) (in_flight w).

(** ** Polls run to their end *)

(** The events of one poll that nothing interleaves with: a request is
    appended to the ones in flight, so it is resolved at the index that
    is the number of requests in flight before. *)
Definition poll_events (h o : FetchOutcome) (now : Date) (w : World)
  : list (Event * Date) :=
  [(Resolve (List.length (in_flight w)) h, now);
   (Resolve (List.length (in_flight w)) o, now)].

(** One timer tick whose poll runs to its end: the health probe ends in
    [h], the data request in [o]. *)
Definition tick_cycle (env : Env) (c : FetchOutcome * FetchOutcome * Date)
           (w : World) : World :=
  let '(h, o, now) := c in
  steps env ((Tick, now) :: poll_events h o now w) w.





(** ** Sample inputs *)

Definition dev_env : Env :=
  {| NODE_ENV := Some "development";
     REACT_APP_VPS_URL := None;
     REACT_APP_API_URL := None |}.

Definition custom_env : Env :=
  {| NODE_ENV := Some "development";
     REACT_APP_VPS_URL := None;
     REACT_APP_API_URL := Some "http://10.0.0.5:5000" |}.

Definition t0 : Date := mkDate 0 "1970-01-01T00:00:00.000Z".
Definition t1 : Date := mkDate 2000 "1970-01-01T00:00:02.000Z".
Definition t2 : Date := mkDate 4000 "1970-01-01T00:00:04.000Z".

Definition dev1 : User :=
  {| user_id := "dev1"; device_name := None; status := "idle";
     latest_audio := None |}.

Definition dev2 : User :=
  {| user_id := "dev2"; device_name := Some "Pixel 7"; status := "listening";
     latest_audio := Some "/api/uploads/dev2/rec_002.wav" |}.

Definition dev3 : User :=
  {| user_id := "dev3"; device_name := Some "Galaxy"; status := "offline";
     latest_audio := Some "/api/uploads/dev3/rec_001.wav" |}.

Definition one_device : DashboardData :=
  {| active_sessions_count := Some 0%Z;
     total_users := Some 1%Z;
     connection_status := None;
     users := Some [dev1];
     active_sessions := None;
     stats := None;
     error_message := None;
     last_updated := Some "1970-01-01T00:00:00.000Z" |}.


(** The case mapping of an engine, cut down to what it does on ASCII
    text: nothing beyond the fold of the letters. *)
Definition ascii_engine : string -> string := fun s => s.

Definition health_ok : FetchOutcome := Response 200 (GoodJson JNull).

Definition network_down : FetchOutcome := NetworkError "Failed to fetch".

(** The dashboard after it mounted and its first poll brought
    [one_device]. *)
Definition mounted : World :=
  steps dev_env
    [(Mount, t0); (Resolve 0 health_ok, t0); (Resolve 0 (ok_with one_device), t0)]
    initial_world.

(** ** More of the UserList component *)

(** The [timestamp] handed to [formatLastSeen]: falsy (missing, [null] or
    empty), or a value [new Date(timestamp)] makes an Invalid Date of,
    or one it reads as [ms] milliseconds since the epoch (a whole
    number, within the range of dates). *)
Inductive LastSeen :=
| NoTimestamp
| InvalidDate
| SeenAt (ms : Z).

(** A number that may be [NaN] ([None]).  Every comparison with [NaN]
    is false; arithmetic on [NaN] gives [NaN]. *)
Definition num_lt (x : option Z) (k : Z) : bool :=
  match x with
  | Some v => (v <? k)%Z
  | None => false
  end.

(** [Math.floor(x / k)] for a positive integer [k]. *)
Definition num_floor_div (x : option Z) (k : Z) : option Z :=
  match x with
  | Some v => Some (v / k)%Z
  | None => None
  end.

Definition num_to_string (x : option Z) : string :=
  match x with
  | Some v => number_to_string v
  | None => "NaN"
  end.

(** The time values of dates: whole numbers of milliseconds up to
    8.64e15 either side of the epoch. *)
Definition valid_time (t : Z) : Prop :=
  (Z.abs t <= 8640000000000000)%Z.

(** The double nearest to a whole number [z] below 2^54 in size, as the
    difference of two time values is.  Up to 2^53 every whole number is
    a double.  Beyond, the doubles are the even numbers, and an odd
    number, half-way between two of them, goes to the one that is a
    multiple of 4 (round half to even). *)
Definition to_double (z : Z) : Z :=
  if (Z.abs z <=? 2 ^ 53)%Z then z
  else if Z.even z then z
  else if (z mod 4 =? 3)%Z then (z + 1)%Z
  else (z - 1)%Z.

(** [now - lastSeen] is the nearest double of the difference.  The
    quotients that follow lose nothing: a difference over 2^53 is even,
    so its quotient by 60000 stays further from the next whole number
    than a double of that size is from its neighbours, and the later
    quotients are small; so [Math.floor] of each is the floor of the
    exact quotient. *)
Definition formatLastSeen (now : Date) (timestamp : LastSeen) : string :=
  match timestamp with
  | NoTimestamp => "Never"
  | _ =>
      let diffMs :=
        match timestamp with
        | SeenAt ms => Some (to_double (epoch_ms now - ms))
        | _ => None
        end in
      let diffMins := num_floor_div diffMs 60000 in
      let diffHours := num_floor_div diffMins 60 in
      let diffDays := num_floor_div diffHours 24 in
      if num_lt diffMins 1 then "Just now"
      else if num_lt diffMins 60 then num_to_string diffMins ++ "m ago"
      else if num_lt diffHours 24 then num_to_string diffHours ++ "h ago"
      else num_to_string diffDays ++ "d ago"
  end.

(** [handleUserAction(user, action)], with the three callbacks
    [Dashboard] passes: the event the call amounts to, if any. *)
Definition handleUserAction (user : User) (action : string) : option Event :=
  if String.eqb action "play" then Some (PlayAudio user)
  else if String.eqb action "start" then Some (StartListening (user_id user))
  else if String.eqb action "stop" then Some (StopListening (user_id user))
  else None.

(** The actions of the buttons a device card renders, in their order:
    the play button when [latest_audio] is truthy, then the stop button
    for a listening device and the listen button for any other. *)
Definition card_actions (user : User) : list string :=
  ((if truthy (latest_audio user) then ["play"] else [])
   ++ [if String.eqb (status user) "listening" then "stop" else "start"])%list.

Record Upload := mkUpload {
  filename : string;
  timestamp : string
}.

(** [user.uploads?.length || 0], the "Recordings" figure. *)
Definition recordings_count (uploads : option (list Upload)) : nat :=
  match uploads with
  | Some l => List.length l
  | None => 0
  end.

(** [user.uploads.slice(0, 3)], rendered when [uploads] is present and
    not empty. *)
Definition shown_uploads (uploads : option (list Upload)) : list Upload :=
  match uploads with
  | Some l => firstn 3 l
  | None => []
  end.

(** The [n] of the line "+n more recordings...", when it is rendered. *)
Definition more_uploads (uploads : option (list Upload)) : option nat :=
  match uploads with
  | Some l => if (3 <? List.length l)%nat then Some (List.length l - 3) else None
  | None => None
  end.

(** The text of the empty list, for the case [filteredUsers.length === 0]:
    [true] stands for "No devices match your search criteria", [false]
    for "No devices connected yet". *)
Definition empty_list_blames_criteria (searchTerm statusFilter : string) : bool :=
  match searchTerm with
  | String _ _ => true
  | EmptyString => negb (String.eqb statusFilter "all")
  end.

(** ** What programs may do *)

(** Every state update of a program is in [PA] and every request it
    sends is in [PF], whatever its requests end in. *)
Inductive respects (PA : Action -> Prop) (PF : string -> Method -> Prop)
          {A : Type} : Prog A -> Prop :=
| respects_ret a : respects PA PF (Ret a)
| respects_throw e : respects PA PF (Throw e)
| respects_do act k :
    PA act -> respects PA PF k -> respects PA PF (Do act k)
| respects_date k :
    (forall d, respects PA PF (k d)) -> respects PA PF (NewDate k)
| respects_fetch url m k :
    PF url m -> (forall o, respects PA PF (k o)) ->
    respects PA PF (Fetch url m k).

(** The updates made by code that runs after an [await]: never
    [setIsPolling], never [setCurrentAudio], and [setLoading] with
    [false] only. *)
Definition background_action (a : Action) : Prop :=
  match a with
  | SetIsPolling _ => False
  | SetCurrentAudio _ => False
  | SetLoading b => b = false
  | _ => True
  end.

(** The requests of the dashboard: the two GETs of a poll and the two
    command POSTs, all to the origin of the adapter. *)
Definition dashboard_request (baseURL url : string) (m : Method) : Prop :=
  (url = baseURL ++ "/api/health" /\ m = GET)
  \/ (url = baseURL ++ dashboard_endpoint /\ m = GET)
  \/ (exists userId, url = baseURL ++ "/api/start-listening/" ++ userId /\ m = POST)
  \/ (exists userId, url = baseURL ++ "/api/stop-listening/" ++ userId /\ m = POST).

(** The requests in flight are requests of the dashboard, and so is
    everything the code waiting for them will do. *)
Definition in_flight_ok (env : Env) (w : World) : Prop :=
  Forall (fun p =>
            dashboard_request (API_BASE_URL env) (pending_url p) (pending_method p)
            /\ forall o,
                 respects background_action (dashboard_request (API_BASE_URL env))
                   (pending_k p o))
         (in_flight w).

(** How background code may change the state: [isPolling] and
    [currentAudio] stay, and [loading] does not come back. *)
Definition background_change (s s' : UIState) : Prop :=
  isPolling s' = isPolling s
  /\ currentAudio s' = currentAudio s
  /\ (loading s = false -> loading s' = false).

Definition is_audio_event (ev : Event) : bool :=
  match ev with
  | PlayAudio _ | CloseAudio => true
  | _ => false
  end.

(** [s] has no slash. *)
Fixpoint no_slash (s : string) : bool :=
  match s with
  | EmptyString => true
  | String c rest => negb (Ascii.eqb c "/"%char) && no_slash rest
  end.

(** ** More on polls *)

(** The message of the [TypeError] thrown by [data.connection_status]
    for a [null] [data]. *)
Definition null_body_message : Error :=
  "Cannot read properties of null (reading 'connection_status')".

(** The request a poll starts with, and the code that waits for it. *)
Definition first_request (baseURL : string) : Pending :=
  match fetchDashboardData baseURL with
  | Fetch url m k => mkPending url m k
  | _ => mkPending EmptyString GET (fun _ => Ret tt)
  end.

(** * Properties *)

Arguments number_to_string : simpl never.
Arguments response_ok : simpl never.


(** ** Lists of requests in flight *)

Lemma nth_error_app_last {A : Type} (l : list A) (x : A) :
  nth_error (l ++ [x]) (List.length l) = Some x.
Proof.
  induction l as [|y l IH]; simpl; [reflexivity | exact IH].
Qed.

Lemma remove_nth_app_last {A : Type} (l : list A) (x : A) :
  remove_nth (List.length l) (l ++ [x]) = l.
Proof.
  induction l as [|y l IH]; simpl; [reflexivity | now rewrite IH].
Qed.

Lemma failed_request_error (o : FetchOutcome) :
  failed o = true -> request_error o = Some (failure_message o).
Proof.
  destruct o as [e | code body]; simpl; [reflexivity |].
  intros H; now rewrite H.
Qed.

(** ** One poll, from its first request to its last state update *)

Section OnePoll.
Variable env : Env.
Let baseURL := API_BASE_URL env.

(** A poll whose data request fails still runs the [try] branch to its
    end, with the fallback object in place of the data. *)
Lemma poll_failed (w : World) (now1 now2 now3 : Date) (h o : FetchOutcome) :
  failed o = true ->
  steps env [(Resolve (List.length (in_flight w)) h, now2);
             (Resolve (List.length (in_flight w)) o, now3)]
    (spawn (fetchDashboardData baseURL) now1 w)
  = {| ui := {| dashboardData :=
                  JObject (fallback_data (failure_message o) now3);
                loading := false;
                error := None;
                isPolling := isPolling (ui w);
                lastUpdated := Some now3;
                connectionStatus := "error";
                currentAudio := currentAudio (ui w) |};
       console := console w ++ health_log h ++
                  [LogError "API request failed for /api/dashboard-data:"
                     (failure_message o)];
       interval := interval w;
       in_flight := in_flight w |}.
Proof.
  intros Hf.
  destruct w as [[data ld err pol upd conn aud] c i l].
  unfold steps, step, spawn. simpl.
  rewrite nth_error_app_last, remove_nth_app_last.
  destruct h as [e | code [e | j]]; simpl;
    try (destruct (response_ok code) eqn:Hc; simpl);
    rewrite nth_error_app_last, remove_nth_app_last;
    (destruct o as [e' | code' body']; simpl in Hf |- *;
     [| rewrite Hf; simpl]);
    unfold health_log; simpl; try rewrite Hc; simpl;
    rewrite <- ?app_assoc; reflexivity.
Qed.

(** A poll whose data request brings the object [d] publishes it. *)
Lemma poll_succeeded (w : World) (now1 now2 now3 : Date)
      (h : FetchOutcome) (code : Z) (d : DashboardData) :
  response_ok code = true ->
  steps env [(Resolve (List.length (in_flight w)) h, now2);
             (Resolve (List.length (in_flight w))
                (Response code (GoodJson (JObject d))), now3)]
    (spawn (fetchDashboardData baseURL) now1 w)
  = {| ui := {| dashboardData := JObject d;
                loading := false;
                error := None;
                isPolling := isPolling (ui w);
                lastUpdated := Some now3;
                connectionStatus := or_else (connection_status d) "connected";
                currentAudio := currentAudio (ui w) |};
       console := console w ++ health_log h;
       interval := interval w;
       in_flight := in_flight w |}.
Proof.
  intros Hok.
  destruct w as [[data ld err pol upd conn aud] c i l].
  unfold steps, step, spawn. simpl.
  rewrite nth_error_app_last, remove_nth_app_last.
  destruct h as [e | hc [e | j]]; simpl;
    try (destruct (response_ok hc) eqn:Hc; simpl);
    rewrite nth_error_app_last, remove_nth_app_last; simpl;
    rewrite Hok; simpl;
    unfold health_log; simpl; try rewrite Hc; simpl;
    rewrite <- ?app_assoc, ?app_nil_r; reflexivity.
Qed.

(** Between the two requests of a poll exactly one request is in
    flight for it, and the state is untouched. *)
Lemma poll_started (w : World) (now1 : Date) :
  ui (spawn (fetchDashboardData baseURL) now1 w) = ui w
  /\ requests_in_flight (spawn (fetchDashboardData baseURL) now1 w)
     = (requests_in_flight w ++ [((baseURL ++ "/api/health")%string, GET)])%list.
Proof.
  destruct w as [s c i l].
  unfold spawn, requests_in_flight. simpl. split; [reflexivity |].
  now rewrite map_app.
Qed.

End OnePoll.

(** ** Failed polls *)

(** C1, as the claim states it, fails: with one device displayed, a poll
    whose data request meets a network error leaves the displayed list
    empty. *)
Lemma failed_poll_blanks_devices :
  displayed_users (ui mounted) = [dev1]
  /\ displayed_users
       (ui (tick_cycle dev_env (health_ok, network_down, t1) mounted)) = []
  /\ ~ (forall (w : World) (h o : FetchOutcome) (now : Date),
          interval w = true -> failed o = true ->
          displayed_users (ui (tick_cycle dev_env (h, o, now) w))
          = displayed_users (ui w)).
Proof.
  split; [reflexivity |]. split; [reflexivity |].
  intros H.
  specialize (H mounted health_ok network_down t1 eq_refl eq_refl).
  discriminate H.
Qed.

(** C1, amended: every poll whose data request fails (network error or
    non-2xx response) sets [connectionStatus] to [error] and publishes
    the fallback object of the transport adapter, whose [users] is
    empty; [error] is cleared and the poll leaves no request in flight. *)
Theorem failed_poll_publishes_fallback
        (env : Env) (w : World) (now1 now2 now3 : Date) (h o : FetchOutcome) :
  failed o = true ->
  let w' := steps env
              [(Resolve (List.length (in_flight w)) h, now2);
               (Resolve (List.length (in_flight w)) o, now3)]
              (spawn (fetchDashboardData (API_BASE_URL env)) now1 w) in
  connectionStatus (ui w') = "error"
  /\ dashboardData (ui w') = JObject (fallback_data (failure_message o) now3)
  /\ displayed_users (ui w') = []
  /\ error (ui w') = None
  /\ in_flight w' = in_flight w.
Proof.
  intros Hf w'. subst w'. rewrite (poll_failed env w now1 now2 now3 h o Hf).
  repeat split; reflexivity.
Qed.

Lemma failed_poll_publishes_fallback_witness :
  failed network_down = true
  /\ connectionStatus
       (ui (steps dev_env
              [(Resolve (List.length (in_flight mounted)) health_ok, t1);
               (Resolve (List.length (in_flight mounted)) network_down, t1)]
              (spawn (fetchDashboardData (API_BASE_URL dev_env)) t1 mounted)))
     = "error".
Proof.
  split; [reflexivity |].
  exact (proj1 (failed_poll_publishes_fallback dev_env mounted t1 t1 t1
                  health_ok network_down eq_refl)).
Defined.

(** C10: for a failed request to the dashboard-data endpoint (network
    error or non-2xx response) [getDashboardData] does not throw.  It
    returns the fallback object: [users] empty, [total_users] and
    [active_sessions_count] zero, [connection_status] [error],
    [last_updated] the local current time.  The [catch] branch of the
    calling poll is not taken: the poll ends with [error] cleared and
    nothing but the adapter's own entry added to the console; the failure
    shows only in the published object. *)
Theorem getDashboardData_never_throws
        (env : Env) (w : World) (now1 now2 now3 : Date) (h o : FetchOutcome) :
  failed o = true ->
  (exists k,
     run (getDashboardData (API_BASE_URL env)) now1 w
     = (w, Awaiting (API_BASE_URL env ++ "/api/dashboard-data") GET k)
     /\ exists d,
          snd (run (k o) now3 w) = Returned (JObject d)
          /\ users d = Some []
          /\ total_users d = Some 0%Z
          /\ active_sessions_count d = Some 0%Z
          /\ connection_status d = Some "error"
          /\ last_updated d = Some (toISOString now3))
  /\ let w' := steps env
                 [(Resolve (List.length (in_flight w)) h, now2);
                  (Resolve (List.length (in_flight w)) o, now3)]
                 (spawn (fetchDashboardData (API_BASE_URL env)) now1 w) in
     error (ui w') = None
     /\ console w'
        = (console w ++ health_log h ++
           [LogError "API request failed for /api/dashboard-data:"
              (failure_message o)])%list
     /\ exists d,
          dashboardData (ui w') = JObject d
          /\ connection_status d = Some "error"
          /\ error_message d = Some (failure_message o).
Proof.
  intros Hf. split.
  - eexists. split; [reflexivity |].
    exists (fallback_data (failure_message o) now3). split.
    + destruct w as [s c i l].
      destruct o as [e | code body]; simpl in Hf |- *;
        [| rewrite Hf; simpl]; reflexivity.
    + repeat split.
  - intros w'. subst w'. rewrite (poll_failed env w now1 now2 now3 h o Hf).
    simpl. repeat split.
    exists (fallback_data (failure_message o) now3). repeat split.
Qed.

Lemma getDashboardData_never_throws_witness :
  failed (Response 503 (BadJson "Unexpected token")) = true
  /\ error
       (ui (steps dev_env
              [(Resolve (List.length (in_flight mounted)) network_down, t1);
               (Resolve (List.length (in_flight mounted))
                  (Response 503 (BadJson "Unexpected token")), t2)]
              (spawn (fetchDashboardData (API_BASE_URL dev_env)) t1 mounted)))
     = None.
Proof.
  split; [reflexivity |].
  exact (proj1 (proj2 (getDashboardData_never_throws dev_env mounted t1 t1 t2
                         network_down (Response 503 (BadJson "Unexpected token"))
                         eq_refl))).
Defined.

(** ** The timer *)

Lemma spawn_fetch_interval (baseURL : string) (now : Date) (w : World) :
  interval (spawn (fetchDashboardData baseURL) now w) = interval w.
Proof.
  destruct w as [s c i l]. reflexivity.
Qed.

Lemma tick_starts_fetch (env : Env) (now : Date) (w : World) :
  interval w = true ->
  interval (step env Tick now w) = true
  /\ requests_in_flight (step env Tick now w)
     = (requests_in_flight w ++ [((API_BASE_URL env ++ "/api/health")%string, GET)])%list.
Proof.
  intros Hi. unfold step. rewrite Hi. split.
  - now rewrite spawn_fetch_interval.
  - apply poll_started.
Qed.

(** C2, as the claim states it, fails: the fetch started on mount is
    still in flight when the first tick fires, and the tick starts a
    second one. *)
Lemma second_fetch_while_first_pending :
  requests_in_flight (steps dev_env [(Mount, t0)] initial_world)
  = [("http://localhost:5000/api/health", GET)]
  /\ requests_in_flight (steps dev_env [(Mount, t0); (Tick, t1)] initial_world)
     = [("http://localhost:5000/api/health", GET);
        ("http://localhost:5000/api/health", GET)]
  /\ ~ (forall ticks : list Date,
          List.length
            (in_flight (steps dev_env
                          ((Mount, t0) :: map (fun t => (Tick, t)) ticks)
                          initial_world)) <= 1).
Proof.
  split; [reflexivity |]. split; [reflexivity |].
  intros H. specialize (H [t1]). simpl in H. lia.
Qed.

(** C2, amended: every tick of the armed 2000 ms interval starts a fetch
    whether or not an earlier one is pending; no tick is skipped.  After
    [n] ticks during which nothing resolves, [n] more fetches are in
    flight. *)
Theorem every_tick_starts_a_fetch (env : Env) (ticks : list Date) (w : World) :
  interval w = true ->
  requests_in_flight (steps env (map (fun t => (Tick, t)) ticks) w)
  = (requests_in_flight w ++
     repeat ((API_BASE_URL env ++ "/api/health")%string, GET) (List.length ticks))%list.
Proof.
  revert w. induction ticks as [|t ticks IH]; intros w Hi; cbn [map steps List.length repeat].
  - now rewrite app_nil_r.
  - destruct (tick_starts_fetch env t w Hi) as [Hi' Hr].
    rewrite (IH _ Hi'), Hr, <- app_assoc. reflexivity.
Qed.

Lemma every_tick_starts_a_fetch_witness :
  interval mounted = true
  /\ requests_in_flight (steps dev_env (map (fun t => (Tick, t)) [t1; t2]) mounted)
     = [("http://localhost:5000/api/health", GET);
        ("http://localhost:5000/api/health", GET)].
Proof.
  split; [reflexivity |].
  exact (every_tick_starts_a_fetch dev_env [t1; t2] mounted eq_refl).
Defined.

(** ** Pausing *)

(** Pausing while a poll is in flight touches the flag and the timer
    only; the poll stays in flight as it was. *)
Lemma pause_keeps_poll_in_flight (env : Env) (now1 now2 : Date) (w : World) :
  isPolling (ui w) = true ->
  interval w = true ->
  step env TogglePolling now2
    (spawn (fetchDashboardData (API_BASE_URL env)) now1 w)
  = spawn (fetchDashboardData (API_BASE_URL env)) now1
      (set_interval false (apply_action (SetIsPolling false) w)).
Proof.
  destruct w as [[data ld err pol upd conn aud] c i l]. simpl.
  intros -> ->. reflexivity.
Qed.

(** C4, as the claim states it, fails: the fetch started on mount is in
    flight when polling is paused; when it resolves, its snapshot is
    published all the same. *)
Lemma stale_response_is_published :
  let stopped := steps dev_env [(Mount, t0); (TogglePolling, t1)] initial_world in
  let resolved :=
    steps dev_env
      [(Resolve 0 health_ok, t1); (Resolve 0 (ok_with one_device), t2)]
      stopped in
  isPolling (ui stopped) = false
  /\ interval stopped = false
  /\ requests_in_flight stopped = [("http://localhost:5000/api/health", GET)]
  /\ dashboardData (ui stopped) = JNull
  /\ dashboardData (ui resolved) = JObject one_device
  /\ lastUpdated (ui resolved) = Some t2
  /\ ui resolved <> ui stopped.
Proof.
  repeat split. discriminate.
Qed.

(** C4, amended: deactivating polling cancels the timer, so that no
    further tick starts a fetch, and leaves a fetch in flight alone.
    That fetch is not discarded: when it resolves with a snapshot, the
    snapshot is published ([dashboardData], [connectionStatus],
    [lastUpdated] and [error] are set) although [isPolling] is false. *)
Theorem pause_stops_timer_not_fetch
        (env : Env) (w : World) (now1 now2 now3 now4 : Date)
        (h : FetchOutcome) (code : Z) (d : DashboardData) :
  isPolling (ui w) = true ->
  interval w = true ->
  response_ok code = true ->
  let n := List.length (in_flight w) in
  let stopped :=
    step env TogglePolling now2
      (spawn (fetchDashboardData (API_BASE_URL env)) now1 w) in
  let resolved :=
    steps env
      [(Resolve n h, now3);
       (Resolve n (Response code (GoodJson (JObject d))), now4)]
      stopped in
  isPolling (ui stopped) = false
  /\ interval stopped = false
  /\ (forall t, step env Tick t stopped = stopped)
  /\ ui stopped = update (SetIsPolling false) (ui w)
  /\ isPolling (ui resolved) = false
  /\ dashboardData (ui resolved) = JObject d
  /\ connectionStatus (ui resolved) = or_else (connection_status d) "connected"
  /\ lastUpdated (ui resolved) = Some now4
  /\ error (ui resolved) = None.
Proof.
  intros Hp Hi Hok n stopped resolved.
  assert (Hs : stopped
               = spawn (fetchDashboardData (API_BASE_URL env)) now1
                   (set_interval false (apply_action (SetIsPolling false) w)))
    by (apply pause_keeps_poll_in_flight; assumption).
  assert (Hn : n = List.length
                     (in_flight (set_interval false
                                   (apply_action (SetIsPolling false) w))))
    by (destruct w as [s c i l]; reflexivity).
  assert (Hr : resolved
               = steps env
                   [(Resolve n h, now3);
                    (Resolve n (Response code (GoodJson (JObject d))), now4)]
                   stopped) by reflexivity.
  rewrite Hs, Hn, poll_succeeded in Hr by assumption.
  assert (Hst : interval stopped = false)
    by (rewrite Hs, spawn_fetch_interval; destruct w as [s c i l]; reflexivity).
  assert (Hui : ui stopped = update (SetIsPolling false) (ui w)).
  { rewrite Hs.
    rewrite (proj1 (poll_started env _ now1)).
    destruct w as [s c i l]; reflexivity. }
  split; [| split; [| split; [| split]]].
  - rewrite Hui. destruct (ui w); reflexivity.
  - exact Hst.
  - intros t. unfold step. now rewrite Hst.
  - exact Hui.
  - rewrite Hr. simpl. destruct w as [[data ld err pol upd conn aud] c i l].
    repeat split.
Qed.

Lemma pause_stops_timer_not_fetch_witness :
  isPolling (ui mounted) = true
  /\ interval mounted = true
  /\ response_ok 200 = true
  /\ isPolling
       (ui (step dev_env TogglePolling t1
              (spawn (fetchDashboardData (API_BASE_URL dev_env)) t1 mounted)))
     = false.
Proof.
  repeat (split; [reflexivity |]).
  exact (proj1 (pause_stops_timer_not_fetch dev_env mounted t1 t1 t2 t2
                  health_ok 200 one_device eq_refl eq_refl eq_refl)).
Defined.

(** ** Failures in a row, then a success *)










(** ** Commands *)

(** C5, as the claim states it, fails: when the start command for
    [dev2] meets a network error, the error goes to the console twice
    and nowhere else.  The state of the component, which is all the
    render layer reads, is exactly what it was ([error] stays empty), so
    nothing is surfaced to the operator. *)
Lemma command_failure_is_only_logged :
  let sent := step dev_env (StartListening "dev2") t1 mounted in
  let answered := step dev_env (Resolve 0 network_down) t2 sent in
  requests_in_flight sent
  = [("http://localhost:5000/api/start-listening/dev2", POST)]
  /\ ui answered = ui mounted
  /\ error (ui answered) = None
  /\ console answered
     = (console mounted ++
        [LogError "API request failed for /api/start-listening/dev2:"
           "Failed to fetch";
         LogError "Failed to start listening:" "Failed to fetch"])%list
  /\ ~ (forall (w : World) (userId : string) (o : FetchOutcome) (e : Error),
          request_error o = Some e ->
          ui (step dev_env (Resolve (List.length (in_flight w)) o) t2
                (step dev_env (StartListening userId) t1 w))
          <> ui w).
Proof.
  split; [reflexivity |]. split; [reflexivity |]. split; [reflexivity |].
  split; [reflexivity |].
  intros H.
  apply (H mounted "dev2" network_down "Failed to fetch" eq_refl).
  reflexivity.
Qed.

(** C5, amended: for every [userId], [handleStartListening] and
    [handleStopListening] send the corresponding POST request and touch
    nothing until it is answered.  When the request succeeds, what
    follows is exactly one poll, started at once.  When it fails, the
    error is written to the console only (once by the adapter, once by
    the handler) and is not surfaced to the render layer: the state of
    the dashboard, snapshot included, is left as it was, and no poll is
    started. *)
Theorem command_then_one_forced_poll
        (env : Env) (start : bool) (userId : string)
        (w : World) (now1 now2 : Date) (o : FetchOutcome) :
  let baseURL := API_BASE_URL env in
  let ev := if start then StartListening userId else StopListening userId in
  let endpoint :=
    ((if start then "/api/start-listening/" else "/api/stop-listening/")
       ++ userId)%string in
  let note :=
    if start then "Failed to start listening:" else "Failed to stop listening:" in
  let n := List.length (in_flight w) in
  let sent := step env ev now1 w in
  let answered := step env (Resolve n o) now2 sent in
  ui sent = ui w
  /\ console sent = console w
  /\ requests_in_flight sent
     = (requests_in_flight w ++ [((baseURL ++ endpoint)%string, POST)])%list
  /\ match request_error o with
     | None =>
         ui answered = ui w
         /\ console answered = console w
         /\ requests_in_flight answered
            = (requests_in_flight w ++
               [((baseURL ++ "/api/health")%string, GET)])%list
         /\ forall h o' now3 now4,
              steps env [(Resolve n h, now3); (Resolve n o', now4)] answered
              = steps env [(Resolve n h, now3); (Resolve n o', now4)]
                  (spawn (fetchDashboardData baseURL) now2 w)
     | Some e =>
         ui answered = ui w
         /\ in_flight answered = in_flight w
         /\ console answered
            = (console w ++
               [LogError ("API request failed for " ++ endpoint ++ ":") e;
                LogError note e])%list
     end.
Proof.
  destruct w as [[data ld err pol upd conn aud] c i l].
  destruct start; cbv zeta; unfold step, spawn, requests_in_flight; simpl;
    rewrite nth_error_app_last, remove_nth_app_last, !map_app; simpl;
    (split; [reflexivity |]); (split; [reflexivity |]);
    (split; [reflexivity |]);
    (destruct o as [e | code [e | j]]; simpl;
     try (destruct (response_ok code); simpl);
     rewrite <- ?app_assoc, ?map_app; simpl;
     try (repeat split; reflexivity)).
  all: repeat (split; [reflexivity |]).
  all: intros h o' now3 now4; unfold steps, step, spawn; simpl;
    rewrite !nth_error_app_last, !remove_nth_app_last;
    destruct h as [e | hc [e | hj]]; simpl;
    try (destruct (response_ok hc); simpl);
    rewrite !nth_error_app_last, !remove_nth_app_last;
    destruct o' as [e' | code' [e' | [| d]]]; simpl;
    try (destruct (response_ok code'); simpl);
    reflexivity.
Qed.

(** ** Audio playback *)

(** C7, as the claim states it, fails: for [dev1], which has no
    [latest_audio], [handlePlayAudio] completes normally; nothing is
    thrown, whatever the name of the error. *)
Lemma play_without_audio_does_not_fail :
  latest_audio dev1 = None
  /\ run (handlePlayAudio dev_env dev1) t1 mounted = (mounted, Returned tt)
  /\ ~ (exists e, snd (run (handlePlayAudio dev_env dev1) t1 mounted) = Threw e).
Proof.
  split; [reflexivity |]. split; [reflexivity |].
  intros [e H]. discriminate H.
Qed.

(** C7, amended: for every device whose [latest_audio] is absent (or
    empty), [handlePlayAudio] returns at once without an error: it sends
    no request, writes nothing, and leaves [currentAudio], with the rest
    of the state, as it was; no session is created. *)
Theorem play_without_audio_is_ignored
        (env : Env) (user : User) (now : Date) (w : World) :
  truthy (latest_audio user) = false ->
  run (handlePlayAudio env user) now w = (w, Returned tt)
  /\ step env (PlayAudio user) now w = w.
Proof.
  intros Hn. unfold step, spawn, handlePlayAudio.
  destruct (latest_audio user) as [[| c s] |]; simpl in *;
    try discriminate; split; reflexivity.
Qed.

Lemma play_without_audio_is_ignored_witness :
  truthy (latest_audio dev1) = false
  /\ step dev_env (PlayAudio dev1) t1 mounted = mounted.
Proof.
  split; [reflexivity |].
  exact (proj2 (play_without_audio_is_ignored dev_env dev1 t1 mounted eq_refl)).
Defined.

(** C8: the dashboard holds at most one audio session, the value of
    [currentAudio].  Requesting playback for a device [b] that has audio
    replaces whatever session is open (that of another device [a], or
    none) by the session of [b], in one update and without any request;
    closing leaves no session, and changes nothing when there is none. *)
Theorem single_audio_session
        (env : Env) (b : User) (path : string) (now : Date) (w : World) :
  latest_audio b = Some path ->
  path <> EmptyString ->
  let played := step env (PlayAudio b) now w in
  let closed := step env CloseAudio now played in
  currentAudio (ui played)
  = Some {| audio_url := playback_base_url env ++ path;
            audio_user := user_id b;
            audio_filename := last_segment path |}
  /\ played = apply_action (SetCurrentAudio (currentAudio (ui played))) w
  /\ in_flight played = in_flight w
  /\ currentAudio (ui closed) = None
  /\ in_flight closed = in_flight w
  /\ step env CloseAudio now closed = closed
  /\ (currentAudio (ui w) = None -> step env CloseAudio now w = w).
Proof.
  intros Hb Hp played closed. subst played closed.
  destruct w as [[data ld err pol upd conn aud] c i l].
  unfold step, spawn, handlePlayAudio. rewrite Hb.
  destruct path as [| ch rest]; [congruence |]. simpl.
  repeat split. intros ->. reflexivity.
Qed.

Lemma single_audio_session_witness :
  latest_audio dev3 = Some "/api/uploads/dev3/rec_001.wav"
  /\ "/api/uploads/dev3/rec_001.wav" <> EmptyString
  /\ currentAudio
       (ui (step dev_env (PlayAudio dev3) t2
              (step dev_env (PlayAudio dev2) t1 mounted)))
     = Some {| audio_url := "http://localhost:5000/api/uploads/dev3/rec_001.wav";
               audio_user := "dev3";
               audio_filename := "rec_001.wav" |}.
Proof.
  split; [reflexivity |]. split; [discriminate |].
  exact (proj1 (single_audio_session dev_env dev3
                  "/api/uploads/dev3/rec_001.wav" t2
                  (step dev_env (PlayAudio dev2) t1 mounted)
                  eq_refl
                  (fun H => @eq_ind _ "/api/uploads/dev3/rec_001.wav"
                              (fun s => match s with
                                        | EmptyString => False
                                        | String _ _ => True
                                        end) I EmptyString H))).
Defined.

(** C9 does not hold of the code: with [REACT_APP_API_URL] set in a
    development build, the transport adapter sends its requests to that
    origin, and [handlePlayAudio] still resolves the audio path against
    [http://localhost:5000]. *)
Theorem playback_origin_ignores_environment :
  API_BASE_URL custom_env = "http://10.0.0.5:5000"
  /\ playback_base_url custom_env = "http://localhost:5000"
  /\ playback_base_url custom_env <> API_BASE_URL custom_env
  /\ requests_in_flight (step custom_env Mount t0 initial_world)
     = [("http://10.0.0.5:5000/api/health", GET)]
  /\ currentAudio (ui (step custom_env (PlayAudio dev2) t1 initial_world))
     = Some {| audio_url := "http://localhost:5000/api/uploads/dev2/rec_002.wav";
               audio_user := "dev2";
               audio_filename := "rec_002.wav" |}.
Proof.
  repeat split. discriminate.
Qed.

(** The two origins agree when neither override is set. *)
Lemma playback_origin_default (env : Env) :
  truthy (REACT_APP_VPS_URL env) = false ->
  truthy (REACT_APP_API_URL env) = false ->
  playback_base_url env = API_BASE_URL env.
Proof.
  unfold playback_base_url, API_BASE_URL, getApiUrl.
  destruct (REACT_APP_VPS_URL env) as [[| ? ?] |];
    destruct (REACT_APP_API_URL env) as [[| ? ?] |]; simpl;
    try discriminate; intros _ _; reflexivity.
Qed.

(** ** The device filter *)

Section Strings.

Lemma prefix_iff (t s : string) :
  String.prefix t s = true <-> exists post, s = (t ++ post)%string.
Proof.
  revert s. induction t as [| x t IH]; intros s.
  - destruct s; simpl; split; intros _; try reflexivity; eexists; reflexivity.
  - destruct s as [| y s]; simpl.
    + split; [discriminate | intros [post H]; discriminate H].
    + destruct (ascii_dec x y) as [-> | Hne].
      * rewrite IH. split; intros [post H]; exists post.
        -- now rewrite H.
        -- now injection H.
      * split; [discriminate |]. intros [post H]. injection H as Hxy _.
        congruence.
Qed.

Lemma includes_eq (s t : string) :
  includes s t
  = if String.prefix t s then true
    else match s with
         | EmptyString => false
         | String _ rest => includes rest t
         end.
Proof.
  destruct s; reflexivity.
Qed.

Lemma includes_iff (s t : string) :
  includes s t = true
  <-> exists pre post, s = (pre ++ t ++ post)%string.
Proof.
  induction s as [| x s IH]; rewrite includes_eq.
  - destruct (String.prefix t EmptyString) eqn:Hp.
    + split; [intros _ | reflexivity].
      apply prefix_iff in Hp. destruct Hp as [post H].
      exists EmptyString, post. exact H.
    + split; [discriminate |]. intros [pre [post H]].
      destruct pre; [| discriminate H].
      assert (Ht : String.prefix t EmptyString = true)
        by (apply prefix_iff; exists post; exact H).
      congruence.
  - destruct (String.prefix t (String x s)) eqn:Hp.
    + split; [intros _ | reflexivity].
      apply prefix_iff in Hp. destruct Hp as [post H].
      exists EmptyString, post. exact H.
    + rewrite IH. split.
      * intros [pre [post H]]. exists (String x pre), post.
        simpl. now rewrite H.
      * intros [pre [post H]]. destruct pre as [| y pre].
        -- assert (Ht : String.prefix t (String x s) = true)
             by (apply prefix_iff; exists post; exact H).
           congruence.
        -- simpl in H. injection H as _ H. exists pre, post. exact H.
Qed.









End Strings.

Lemma filter_twice {A : Type} (p q : A -> bool) (l : list A) :
  filter q (filter p l) = filter (fun x => p x && q x) l.
Proof.
  induction l as [| x l IH]; simpl; [reflexivity |].
  destruct (p x); simpl; [destruct (q x) |]; now rewrite IH.
Qed.



Lemma search_callback_iff (unicode_lower : string -> string)
      (term : string) (u : User) :
  unicode_lower EmptyString = EmptyString ->
  search_callback unicode_lower term u = true
  <-> spec_matches_search unicode_lower term u.
Proof.
  intros H0. unfold search_callback, spec_matches_search, occurs_ignoring_case.
  rewrite orb_true_iff, includes_iff.
  split; (intros [H | H]; [now left |]).
  - right. destruct (device_name u) as [[| c s] |]; try discriminate H.
    exists (String c s). split; [reflexivity |].
    now apply includes_iff.
  - destruct H as [label [Hl [pre [post Hc]]]]. rewrite Hl.
    destruct label as [| c s].
    + left. unfold toLowerCase in Hc at 1. simpl in Hc. rewrite H0 in Hc.
      destruct pre; [| discriminate Hc]. simpl in Hc.
      destruct (toLowerCase unicode_lower term) eqn:Ht; [| discriminate Hc].
      exists EmptyString, (toLowerCase unicode_lower (user_id u)).
      reflexivity.
    + right. apply includes_iff. exists pre, post. exact Hc.
Qed.

Lemma empty_term_matches (unicode_lower : string -> string) (u : User) :
  unicode_lower EmptyString = EmptyString ->
  spec_matches_search unicode_lower EmptyString u.
Proof.
  intros H0. left.
  exists EmptyString, (toLowerCase unicode_lower (user_id u)).
  unfold toLowerCase at 2. simpl. now rewrite H0.
Qed.




Example filter_by_label_ignores_case :
  filteredUsers ascii_engine [dev1; dev2; dev3] "PIXEL" "all" = [dev2].
Proof. reflexivity. Qed.

Example filter_by_id_and_status :
  filteredUsers ascii_engine [dev1; dev2; dev3] "Dev" "offline" = [dev3]
  /\ filteredUsers ascii_engine [dev1; dev2; dev3] EmptyString "all"
     = [dev1; dev2; dev3]
  /\ filteredUsers ascii_engine [dev1; dev2; dev3] "zzz" "all" = [].
Proof. repeat split. Qed.

Example last_segment_of_path :
  last_segment "/api/uploads/dev2/rec_002.wav" = "rec_002.wav"
  /\ last_segment "rec.wav" = "rec.wav"
  /\ last_segment "/api/uploads/" = EmptyString.
Proof. repeat split. Qed.

Example http_error_message :
  failure_message (Response 503 (BadJson "Unexpected token"))
  = "HTTP error! status: 503".
Proof. reflexivity. Qed.

(** ** What programs may do: invariants of the event loop *)

Section Respect.
Variable PA : Action -> Prop.
Variable PF : string -> Method -> Prop.

Lemma respects_bind {A B : Type} (p : Prog A) (f : A -> Prog B) :
  respects PA PF p -> (forall a, respects PA PF (f a)) ->
  respects PA PF (bind p f).
Proof.
  intros Hp Hf. induction Hp; simpl; try (constructor; auto); auto.
Qed.

Lemma respects_try_catch {A : Type} (p : Prog A) (h : Error -> Prog A) :
  respects PA PF p -> (forall e, respects PA PF (h e)) ->
  respects PA PF (try_catch p h).
Proof.
  intros Hp Hh. induction Hp; simpl; try (constructor; auto); auto.
Qed.

Lemma respects_try_finally {A : Type} (p : Prog A) (fin : Prog unit) :
  respects PA PF p -> respects PA PF fin ->
  respects PA PF (try_finally p fin).
Proof.
  intros Hp Hfin. induction Hp; simpl; try (constructor; auto).
  - apply respects_bind; [exact Hfin | intros; constructor].
  - apply respects_bind; [exact Hfin | intros; constructor].
Qed.

Lemma respects_request (baseURL endpoint : string) (m : Method) :
  (forall msg e, PA (ConsoleError msg e)) ->
  PF (baseURL ++ endpoint) m ->
  respects PA PF (request baseURL endpoint m).
Proof.
  intros Hlog Hurl. unfold request. apply respects_try_catch.
  - constructor; [exact Hurl |].
    intros [e | code [e | j]]; try destruct (negb (response_ok code));
      constructor.
  - intros e. constructor; [apply Hlog |].
    destruct (String.eqb endpoint dashboard_endpoint); repeat constructor.
Qed.
End Respect.

Section Background.
Variable env : Env.
Let baseURL := API_BASE_URL env.
Let PA := background_action.
Let PF := dashboard_request baseURL.

Lemma respects_fetchDashboardData : respects PA PF (fetchDashboardData baseURL).
Proof.
  unfold fetchDashboardData.
  apply respects_try_finally; [| repeat constructor].
  apply respects_try_catch; [| intros e; repeat constructor].
  apply respects_bind.
  - apply respects_try_catch; [| intros e; repeat constructor].
    apply respects_bind; [| intros; constructor].
    apply respects_request; [intros; exact I |]. left. split; reflexivity.
  - intros _. apply respects_bind.
    + apply respects_request; [intros; exact I |].
      right. left. split; reflexivity.
    + intros data. constructor; [exact I |].
      apply respects_bind; [destruct data; constructor |].
      intros cs. repeat constructor.
Qed.

Lemma respects_handleStartListening (userId : string) :
  respects PA PF (handleStartListening baseURL userId).
Proof.
  unfold handleStartListening.
  apply respects_try_catch; [| intros e; repeat constructor].
  apply respects_bind; [| intros _; apply respects_fetchDashboardData].
  apply respects_request; [intros; exact I |].
  right. right. left. exists userId. unfold baseURL. split; reflexivity.
Qed.

Lemma respects_handleStopListening (userId : string) :
  respects PA PF (handleStopListening baseURL userId).
Proof.
  unfold handleStopListening.
  apply respects_try_catch; [| intros e; repeat constructor].
  apply respects_bind; [| intros _; apply respects_fetchDashboardData].
  apply respects_request; [intros; exact I |].
  right. right. right. exists userId. split; reflexivity.
Qed.
End Background.

Lemma background_change_refl (s : UIState) : background_change s s.
Proof. repeat split; auto. Qed.

Lemma background_change_trans (s1 s2 s3 : UIState) :
  background_change s1 s2 -> background_change s2 s3 ->
  background_change s1 s3.
Proof.
  intros [Hp [Ha Hl]] [Hp' [Ha' Hl']]. repeat split; try congruence; auto.
Qed.

Lemma apply_action_background (a : Action) (w : World) :
  background_action a ->
  background_change (ui w) (ui (apply_action a w))
  /\ interval (apply_action a w) = interval w
  /\ in_flight (apply_action a w) = in_flight w.
Proof.
  destruct w as [[data ld err pol upd conn aud] c i l].
  destruct a; simpl; intros H; try contradiction;
    repeat split; auto.
Qed.

Lemma in_flight_set_interval (b : bool) (w : World) :
  in_flight (set_interval b w) = in_flight w
  /\ ui (set_interval b w) = ui w
  /\ interval (set_interval b w) = b.
Proof. destruct w as [s c i l]. repeat split. Qed.

Section Loop.
Variable env : Env.
Let baseURL := API_BASE_URL env.
Let PA := background_action.
Let PF := dashboard_request baseURL.

Lemma run_respects {A : Type} (p : Prog A) :
  respects PA PF p ->
  forall now w,
    background_change (ui w) (ui (fst (run p now w)))
    /\ interval (fst (run p now w)) = interval w
    /\ in_flight (fst (run p now w)) = in_flight w
    /\ match snd (run p now w) with
       | Awaiting url m k => PF url m /\ forall o, respects PA PF (k o)
       | _ => True
       end.
Proof.
  induction 1 as [a | e | act k Hact _ IH | k _ IH | url m k Hurl Hk _];
    intros now w; simpl.
  - repeat split; auto.
  - repeat split; auto.
  - destruct (apply_action_background act w Hact) as [Hc [Hi Hl]].
    destruct (IH now (apply_action act w)) as [Hc' [Hi' [Hl' Hs]]].
    split; [eapply background_change_trans; eassumption |].
    split; [congruence |]. split; [congruence | exact Hs].
  - apply IH.
  - repeat split; auto.
Qed.

Lemma spawn_respects (p : Prog unit) (now : Date) (w : World) :
  respects PA PF p ->
  in_flight_ok env w ->
  in_flight_ok env (spawn p now w)
  /\ background_change (ui w) (ui (spawn p now w))
  /\ interval (spawn p now w) = interval w.
Proof.
  intros Hp Hw. destruct (run_respects p Hp now w) as [Hc [Hi [Hl Hs]]].
  unfold spawn. destruct (run p now w) as [w' st]. simpl in *.
  destruct st as [a | e | url m k]; unfold in_flight_ok in *.
  - rewrite Hl. auto.
  - rewrite Hl. auto.
  - destruct w' as [s c i l]. simpl in *. subst l.
    split; [| auto]. apply Forall_app. split; [exact Hw |].
    constructor; [exact Hs | constructor].
Qed.

Lemma Forall_remove_nth {A : Type} (P : A -> Prop) (i : nat) (l : list A) :
  Forall P l -> Forall P (remove_nth i l).
Proof.
  intros H. revert i. induction H as [| x l Hx Hl IH]; intros [| i]; simpl;
    try constructor; auto.
Qed.

Lemma Forall_nth_error {A : Type} (P : A -> Prop) (i : nat) (l : list A) (x : A) :
  Forall P l -> nth_error l i = Some x -> P x.
Proof.
  intros H. revert i. induction H as [| y l Hy _ IH]; intros [| i] Hn;
    simpl in Hn; try discriminate.
  - injection Hn as <-. exact Hy.
  - eapply IH; eassumption.
Qed.

Lemma spawn_audio (p : Prog unit) (now : Date) (w : World) :
  p = handleCloseAudio \/ (exists user, p = handlePlayAudio env user) ->
  in_flight (spawn p now w) = in_flight w
  /\ interval (spawn p now w) = interval w
  /\ isPolling (ui (spawn p now w)) = isPolling (ui w)
  /\ loading (ui (spawn p now w)) = loading (ui w).
Proof.
  destruct w as [[data ld err pol upd conn aud] c i l].
  intros [-> | [user ->]]; unfold spawn, handlePlayAudio; simpl.
  - repeat split.
  - destruct (latest_audio user) as [[| ch rest] |]; simpl; repeat split.
Qed.

Lemma polling_effect_in_flight_ok (now : Date) (w : World) :
  in_flight_ok env w -> in_flight_ok env (polling_effect baseURL now w).
Proof.
  intros Hw. unfold polling_effect. destruct (isPolling (ui w)); [| exact Hw].
  unfold in_flight_ok. rewrite (proj1 (in_flight_set_interval _ _)).
  apply spawn_respects; [apply respects_fetchDashboardData | exact Hw].
Qed.

(** What is in flight stays within the requests of the dashboard,
    whatever happens. *)
Lemma step_in_flight_ok (ev : Event) (now : Date) (w : World) :
  in_flight_ok env w -> in_flight_ok env (step env ev now w).
Proof.
  intros Hw. destruct ev as [| | i o | | userId | userId | user |];
    unfold step.
  - apply polling_effect_in_flight_ok. exact Hw.
  - destruct (interval w); [| exact Hw].
    apply spawn_respects; [apply respects_fetchDashboardData | exact Hw].
  - destruct (nth_error (in_flight w) i) as [p |] eqn:Hn; [| exact Hw].
    destruct (Forall_nth_error _ _ _ _ Hw Hn) as [_ Hk].
    apply spawn_respects; [apply Hk |].
    unfold in_flight_ok. destruct w as [s c iv l]. simpl in *.
    apply Forall_remove_nth. exact Hw.
  - apply polling_effect_in_flight_ok.
    destruct w as [[data ld err pol upd conn aud] c iv l].
    unfold polling_cleanup. simpl. destruct iv; exact Hw.
  - apply spawn_respects; [apply respects_handleStartListening | exact Hw].
  - apply spawn_respects; [apply respects_handleStopListening | exact Hw].
  - unfold in_flight_ok.
    rewrite (proj1 (spawn_audio (handlePlayAudio env user) now w
                      (or_intror (ex_intro _ user eq_refl)))).
    exact Hw.
  - unfold in_flight_ok.
    rewrite (proj1 (spawn_audio handleCloseAudio now w (or_introl eq_refl))).
    exact Hw.
Qed.

Lemma steps_in_flight_ok (evs : list (Event * Date)) (w : World) :
  in_flight_ok env w -> in_flight_ok env (steps env evs w).
Proof.
  revert w. induction evs as [| [ev now] evs IH]; intros w Hw; simpl.
  - exact Hw.
  - apply IH. apply step_in_flight_ok. exact Hw.
Qed.

Lemma initial_in_flight_ok : in_flight_ok env initial_world.
Proof. constructor. Qed.
End Loop.

Section Reachable.
Variable env : Env.
Let baseURL := API_BASE_URL env.

Lemma polling_effect_change (now : Date) (w : World) :
  in_flight_ok env w ->
  background_change (ui w) (ui (polling_effect baseURL now w))
  /\ interval (polling_effect baseURL now w) = isPolling (ui w) || interval w.
Proof.
  intros Hw. unfold polling_effect.
  destruct (isPolling (ui w)) eqn:Hp; simpl.
  - destruct (in_flight_set_interval true (spawn (fetchDashboardData baseURL) now w))
      as [_ [Hui Hi]].
    rewrite Hui, Hi. split; [| reflexivity].
    apply (spawn_respects env _ now w (respects_fetchDashboardData env) Hw).
  - split; [apply background_change_refl | reflexivity].
Qed.

Lemma toggle_prepared (b : bool) (w : World) :
  let w1 := polling_cleanup (apply_action (SetIsPolling b) w) in
  ui w1 = update (SetIsPolling b) (ui w)
  /\ interval w1 = false
  /\ in_flight w1 = in_flight w.
Proof.
  destruct w as [[data ld err pol upd conn aud] c iv l].
  unfold polling_cleanup. simpl. destruct iv; repeat split.
Qed.

Lemma resolve_prepared (l : list Pending) (w : World) :
  ui (set_in_flight l w) = ui w
  /\ interval (set_in_flight l w) = interval w
  /\ in_flight (set_in_flight l w) = l.
Proof. destruct w as [s c iv l']. repeat split. Qed.

(** What one turn of the event loop can do to [isPolling], the timer,
    [loading] and [currentAudio]. *)
Lemma step_change (ev : Event) (now : Date) (w : World) :
  in_flight_ok env w ->
  let w' := step env ev now w in
  (interval w = isPolling (ui w)
   \/ (ev = Mount /\ isPolling (ui w) = true)
   \/ ev = TogglePolling ->
   interval w' = isPolling (ui w'))
  /\ (loading (ui w) = false -> loading (ui w') = false)
  /\ (is_audio_event ev = false -> currentAudio (ui w') = currentAudio (ui w))
  /\ (ev <> TogglePolling -> isPolling (ui w') = isPolling (ui w)).
Proof.
  intros Hw w'. subst w'.
  destruct ev as [| | i o | | userId | userId | user |]; unfold step.
  - destruct (polling_effect_change now w Hw) as [[Hp [Ha Hl]] Hi].
    fold baseURL. rewrite Hi, Hp. repeat split; auto.
    intros [H | [[_ H] | H]]; [rewrite H | rewrite H | discriminate H];
      destruct (isPolling (ui w)); reflexivity.
  - destruct (interval w) eqn:Hiv.
    + destruct (spawn_respects env _ now w (respects_fetchDashboardData env) Hw)
        as [_ [[Hp [Ha Hl]] Hi]].
      rewrite Hi, Hp. repeat split; auto.
      intros [H | [H | H]]; [rewrite <- H; exact Hiv | destruct H as [H _]; discriminate H | discriminate H].
    + repeat split; auto.
      intros [H | [H | H]]; [rewrite <- H; exact Hiv | destruct H as [H _]; discriminate H | discriminate H].
  - destruct (nth_error (in_flight w) i) as [p |] eqn:Hn.
    + destruct (Forall_nth_error _ _ _ _ Hw Hn) as [_ Hk].
      destruct (resolve_prepared (remove_nth i (in_flight w)) w)
        as [Hui [Hiv Hfl]].
      assert (Hok : in_flight_ok env
                      (set_in_flight (remove_nth i (in_flight w)) w)).
      { unfold in_flight_ok. rewrite Hfl. apply Forall_remove_nth. exact Hw. }
      destruct (spawn_respects env _ now _ (Hk o) Hok)
        as [_ [[Hp [Ha Hl]] Hi]].
      rewrite Hui in Hp, Ha, Hl. rewrite Hi, Hiv, Hp.
      repeat split; auto.
      intros [H | [H | H]]; [exact H | destruct H as [H _]; discriminate H | discriminate H].
    + repeat split; auto.
      intros [H | [H | H]]; [exact H | destruct H as [H _]; discriminate H | discriminate H].
  - destruct (toggle_prepared (negb (isPolling (ui w))) w) as [Hui [Hiv Hfl]].
    assert (Hok : in_flight_ok env
                    (polling_cleanup
                       (apply_action (SetIsPolling (negb (isPolling (ui w)))) w)))
      by (unfold in_flight_ok; rewrite Hfl; exact Hw).
    destruct (polling_effect_change now _ Hok) as [[Hp [Ha Hl]] Hi].
    fold baseURL. rewrite Hi, Hp, Ha, Hiv, orb_false_r.
    rewrite Hui in Hl |- *.
    destruct (ui w) as [data ld err pol upd conn aud]. simpl in *.
    repeat split; auto. intros H. now contradiction H.
  - destruct (spawn_respects env _ now w
                (respects_handleStartListening env userId) Hw)
      as [_ [[Hp [Ha Hl]] Hi]].
    rewrite Hi, Hp. repeat split; auto.
    intros [H | [H | H]]; [exact H | destruct H as [H _]; discriminate H | discriminate H].
  - destruct (spawn_respects env _ now w
                (respects_handleStopListening env userId) Hw)
      as [_ [[Hp [Ha Hl]] Hi]].
    rewrite Hi, Hp. repeat split; auto.
    intros [H | [H | H]]; [exact H | destruct H as [H _]; discriminate H | discriminate H].
  - destruct (spawn_audio env (handlePlayAudio env user) now w
                (or_intror (ex_intro _ user eq_refl)))
      as [_ [Hi [Hp Hl]]].
    rewrite Hi, Hp, Hl. repeat split; auto; try discriminate.
    intros [H | [H | H]]; [exact H | destruct H as [H _]; discriminate H | discriminate H].
  - destruct (spawn_audio env handleCloseAudio now w (or_introl eq_refl))
      as [_ [Hi [Hp Hl]]].
    rewrite Hi, Hp, Hl. repeat split; auto; try discriminate.
    intros [H | [H | H]]; [exact H | destruct H as [H _]; discriminate H | discriminate H].
Qed.

Lemma steps_app (evs1 evs2 : list (Event * Date)) (w : World) :
  steps env (evs1 ++ evs2) w = steps env evs2 (steps env evs1 w).
Proof.
  revert w. induction evs1 as [| [ev now] evs1 IH]; intros w; simpl;
    [reflexivity | apply IH].
Qed.
End Reachable.

(** ** Properties of every run of the dashboard *)

(** X1: whatever events occur, and in whatever order, every request in
    flight is one of the four requests of the dashboard (the health
    probe and the data request as GET, start-listening and
    stop-listening as POST), sent to the origin of the adapter. *)
Theorem requests_stay_within_the_adapter
        (env : Env) (evs : list (Event * Date)) :
  Forall (fun r => dashboard_request (API_BASE_URL env) (fst r) (snd r))
         (requests_in_flight (steps env evs initial_world)).
Proof.
  pose proof (steps_in_flight_ok env evs initial_world
                (initial_in_flight_ok env)) as H.
  unfold requests_in_flight, in_flight_ok in *.
  induction H as [| p l [Hp _] _ IH]; simpl; constructor; assumption.
Qed.

Lemma steps_keep_timer (env : Env) (evs : list (Event * Date)) (w : World) :
  in_flight_ok env w ->
  interval w = isPolling (ui w) ->
  interval (steps env evs w) = isPolling (ui (steps env evs w)).
Proof.
  revert w. induction evs as [| [ev now] evs IH]; intros w Hw Hi; simpl.
  - exact Hi.
  - apply IH; [apply step_in_flight_ok; exact Hw |].
    destruct (step_change env ev now w Hw) as [H _]. apply H. now left.
Qed.

(** X2: once the dashboard is mounted, the interval timer is armed
    exactly when [isPolling] is true, after any sequence of events: no
    timer outlives a pause, and none is missing while polling is on. *)
Theorem timer_armed_iff_polling
        (env : Env) (t : Date) (evs : list (Event * Date)) :
  interval (steps env ((Mount, t) :: evs) initial_world)
  = isPolling (ui (steps env ((Mount, t) :: evs) initial_world)).
Proof.
  cbn [steps]. apply steps_keep_timer.
  - apply step_in_flight_ok, initial_in_flight_ok.
  - destruct (step_change env Mount t initial_world (initial_in_flight_ok env))
      as [H _].
    apply H. right. left. split; reflexivity.
Qed.

Lemma steps_keep_loaded (env : Env) (evs : list (Event * Date)) (w : World) :
  in_flight_ok env w ->
  loading (ui w) = false ->
  loading (ui (steps env evs w)) = false.
Proof.
  revert w. induction evs as [| [ev now] evs IH]; intros w Hw Hl; simpl.
  - exact Hl.
  - apply IH; [apply step_in_flight_ok; exact Hw |].
    destruct (step_change env ev now w Hw) as [_ [H _]]. now apply H.
Qed.

(** X3: [loading] never comes back: once it is false after some events,
    it is false after any further events, so the full-page loading
    screen is not shown again. *)
Theorem loading_never_returns
        (env : Env) (evs1 evs2 : list (Event * Date)) :
  loading (ui (steps env evs1 initial_world)) = false ->
  loading (ui (steps env (evs1 ++ evs2) initial_world)) = false.
Proof.
  intros H. rewrite steps_app. apply steps_keep_loaded; [| exact H].
  apply steps_in_flight_ok, initial_in_flight_ok.
Qed.

Lemma loading_never_returns_witness :
  loading
    (ui (steps dev_env
           [(Mount, t0); (Resolve 0 network_down, t0);
            (Resolve 0 network_down, t0)]
           initial_world)) = false
  /\ loading
       (ui (steps dev_env
              ([(Mount, t0); (Resolve 0 network_down, t0);
                (Resolve 0 network_down, t0)]
               ++ [(TogglePolling, t1); (TogglePolling, t2)])
              initial_world)) = false.
Proof.
  split; [reflexivity |].
  exact (loading_never_returns dev_env
           [(Mount, t0); (Resolve 0 network_down, t0);
            (Resolve 0 network_down, t0)]
           [(TogglePolling, t1); (TogglePolling, t2)] eq_refl).
Defined.

(** X4: the audio session is independent of polling and of commands:
    in every state the dashboard can reach, an event other than playing
    or closing audio (a tick, a response that arrives, a pause, a
    command) leaves [currentAudio] as it is. *)
Theorem only_audio_events_touch_the_session
        (env : Env) (evs : list (Event * Date)) (ev : Event) (now : Date) :
  is_audio_event ev = false ->
  currentAudio (ui (step env ev now (steps env evs initial_world)))
  = currentAudio (ui (steps env evs initial_world)).
Proof.
  intros H.
  destruct (step_change env ev now (steps env evs initial_world)
              (steps_in_flight_ok env evs _ (initial_in_flight_ok env)))
    as [_ [_ [Ha _]]].
  now apply Ha.
Qed.

Lemma only_audio_events_touch_the_session_witness :
  is_audio_event (Resolve 0 network_down) = false
  /\ currentAudio
       (ui (step dev_env (Resolve 0 network_down) t2
              (steps dev_env [(Mount, t0); (PlayAudio dev2, t1)] initial_world)))
     = currentAudio
         (ui (steps dev_env [(Mount, t0); (PlayAudio dev2, t1)] initial_world)).
Proof.
  split; [reflexivity |].
  exact (only_audio_events_touch_the_session dev_env
           [(Mount, t0); (PlayAudio dev2, t1)] (Resolve 0 network_down) t2
           eq_refl).
Defined.

(** ** Edge cases of a poll *)

Lemma nth_error_app_second {A : Type} (l : list A) (x y : A) :
  nth_error (l ++ [x; y]) (S (List.length l)) = Some y.
Proof.
  induction l as [| z l IH]; simpl; [reflexivity | exact IH].
Qed.

Lemma remove_nth_app_second {A : Type} (l : list A) (x y : A) :
  remove_nth (S (List.length l)) (l ++ [x; y]) = (l ++ [x])%list.
Proof.
  induction l as [| z l IH]; [reflexivity | exact (f_equal (cons z) IH)].
Qed.

(** A poll whose data request ends in an error of any kind (a rejected
    [fetch], a status that is not 2xx, a body that does not parse)
    publishes the fallback object. *)
Lemma poll_rejected (env : Env) (w : World) (now1 now2 now3 : Date)
      (h o : FetchOutcome) (e : Error) :
  request_error o = Some e ->
  steps env [(Resolve (List.length (in_flight w)) h, now2);
             (Resolve (List.length (in_flight w)) o, now3)]
    (spawn (fetchDashboardData (API_BASE_URL env)) now1 w)
  = {| ui := {| dashboardData := JObject (fallback_data e now3);
                loading := false;
                error := None;
                isPolling := isPolling (ui w);
                lastUpdated := Some now3;
                connectionStatus := "error";
                currentAudio := currentAudio (ui w) |};
       console := console w ++ health_log h ++
                  [LogError "API request failed for /api/dashboard-data:" e];
       interval := interval w;
       in_flight := in_flight w |}.
Proof.
  intros He. destruct w as [[data ld err pol upd conn aud] c i l].
  unfold steps, step, spawn. simpl.
  rewrite nth_error_app_last, remove_nth_app_last.
  destruct h as [eh | hc [eh | j]]; simpl;
    try (destruct (response_ok hc) eqn:Hc; simpl);
    rewrite nth_error_app_last, remove_nth_app_last;
    (destruct o as [e' | code [e' | j']]; simpl in He |- *;
     try (destruct (response_ok code); simpl in He |- * );
     try discriminate He; injection He as <-);
    unfold health_log; simpl; try rewrite Hc; simpl;
    rewrite <- ?app_assoc; reflexivity.
Qed.

(** A poll whose data request brings the JSON value [null] takes the
    [catch] branch, after [dashboardData] was replaced. *)
Lemma poll_null_body (env : Env) (w : World) (now1 now2 now3 : Date)
      (h : FetchOutcome) (code : Z) :
  response_ok code = true ->
  steps env [(Resolve (List.length (in_flight w)) h, now2);
             (Resolve (List.length (in_flight w))
                (Response code (GoodJson JNull)), now3)]
    (spawn (fetchDashboardData (API_BASE_URL env)) now1 w)
  = {| ui := {| dashboardData := JNull;
                loading := false;
                error := Some null_body_message;
                isPolling := isPolling (ui w);
                lastUpdated := lastUpdated (ui w);
                connectionStatus := "error";
                currentAudio := currentAudio (ui w) |};
       console := console w ++ health_log h ++
                  [LogError "Failed to fetch dashboard data:" null_body_message];
       interval := interval w;
       in_flight := in_flight w |}.
Proof.
  intros Hok. destruct w as [[data ld err pol upd conn aud] c i l].
  unfold steps, step, spawn. simpl.
  rewrite nth_error_app_last, remove_nth_app_last.
  destruct h as [eh | hc [eh | j]]; simpl;
    try (destruct (response_ok hc) eqn:Hc; simpl);
    rewrite nth_error_app_last, remove_nth_app_last; simpl;
    rewrite Hok; simpl;
    unfold health_log; simpl; try rewrite Hc; simpl;
    rewrite <- ?app_assoc; reflexivity.
Qed.

(** X5: a 2xx response to the data request whose body does not parse as
    JSON is handled like a failed request: the poll publishes the
    fallback object carrying the parse error, sets [connectionStatus] to
    [error] and clears [error]. *)
Theorem unparsable_body_publishes_fallback
        (env : Env) (w : World) (now1 now2 now3 : Date)
        (h : FetchOutcome) (code : Z) (msg : Error) :
  response_ok code = true ->
  let w' := steps env
              [(Resolve (List.length (in_flight w)) h, now2);
               (Resolve (List.length (in_flight w))
                  (Response code (BadJson msg)), now3)]
              (spawn (fetchDashboardData (API_BASE_URL env)) now1 w) in
  dashboardData (ui w') = JObject (fallback_data msg now3)
  /\ displayed_users (ui w') = []
  /\ connectionStatus (ui w') = "error"
  /\ error (ui w') = None
  /\ lastUpdated (ui w') = Some now3
  /\ console w'
     = (console w ++ health_log h ++
        [LogError "API request failed for /api/dashboard-data:" msg])%list
  /\ in_flight w' = in_flight w.
Proof.
  intros Hok w'. subst w'.
  rewrite (poll_rejected env w now1 now2 now3 h _ msg)
    by (simpl; now rewrite Hok).
  repeat split.
Qed.

Lemma unparsable_body_publishes_fallback_witness :
  response_ok 200 = true
  /\ displayed_users
       (ui (steps dev_env
              [(Resolve (List.length (in_flight mounted)) health_ok, t1);
               (Resolve (List.length (in_flight mounted))
                  (Response 200 (BadJson "Unexpected token <")), t2)]
              (spawn (fetchDashboardData (API_BASE_URL dev_env)) t1 mounted)))
     = [].
Proof.
  split; [reflexivity |].
  exact (proj1 (proj2 (unparsable_body_publishes_fallback dev_env mounted
                         t1 t1 t2 health_ok 200 "Unexpected token <" eq_refl))).
Defined.

(** X6: a poll sets [error] in one case only, a 2xx response whose body
    is the JSON value [null]: reading [connection_status] throws, the
    [catch] branch records the message and sets [connectionStatus] to
    [error], after [dashboardData] was already replaced by [null]; the
    time of the last update is left as it was.  In every other case the
    poll ends with [error] cleared. *)
Theorem poll_error_only_for_null_body
        (env : Env) (w : World) (now1 now2 now3 : Date) (h o : FetchOutcome) :
  let w' := steps env
              [(Resolve (List.length (in_flight w)) h, now2);
               (Resolve (List.length (in_flight w)) o, now3)]
              (spawn (fetchDashboardData (API_BASE_URL env)) now1 w) in
  loading (ui w') = false
  /\ in_flight w' = in_flight w
  /\ match o with
     | Response code (GoodJson JNull) =>
         if response_ok code
         then error (ui w') = Some null_body_message
              /\ connectionStatus (ui w') = "error"
              /\ dashboardData (ui w') = JNull
              /\ lastUpdated (ui w') = lastUpdated (ui w)
              /\ console w'
                 = (console w ++ health_log h ++
                    [LogError "Failed to fetch dashboard data:"
                       null_body_message])%list
         else error (ui w') = None
     | _ => error (ui w') = None
     end.
Proof.
  intros w'. subst w'.
  destruct (request_error o) as [e |] eqn:He.
  - rewrite (poll_rejected env w now1 now2 now3 h o e He).
    destruct o as [e' | code [e' | [| d]]]; simpl in He |- *;
      try destruct (response_ok code); try discriminate He; repeat split.
  - destruct o as [e' | code [e' | [| d]]]; simpl in He;
      try discriminate He;
      destruct (response_ok code) eqn:Hok; try discriminate He.
    + rewrite poll_null_body by exact Hok. repeat split.
    + rewrite poll_succeeded by exact Hok. repeat split.
Qed.

(** X7: the health probe never blocks a poll and never touches the
    state.  Whatever the probe ends in, the data request is sent next;
    a probe that failed leaves two entries on the console, one that
    succeeded none. *)
Theorem health_probe_never_blocks
        (env : Env) (w : World) (now1 now2 : Date) (h : FetchOutcome) :
  let w' := step env (Resolve (List.length (in_flight w)) h) now2
              (spawn (fetchDashboardData (API_BASE_URL env)) now1 w) in
  ui w' = ui w
  /\ interval w' = interval w
  /\ requests_in_flight w'
     = (requests_in_flight w ++
        [((API_BASE_URL env ++ "/api/dashboard-data")%string, GET)])%list
  /\ console w'
     = (console w ++
        match request_error h with
        | Some e =>
            [LogError "API request failed for /api/health:" e;
             LogWarn "Health check failed, but attempting dashboard data fetch..."]
        | None => []
        end)%list.
Proof.
  destruct w as [s c i l].
  unfold step, spawn, requests_in_flight. simpl.
  rewrite nth_error_app_last, remove_nth_app_last.
  destruct h as [e | hc [e | j]]; simpl;
    try (destruct (response_ok hc); simpl);
    rewrite map_app, <- ?app_assoc, ?app_nil_r; repeat split.
Qed.

Lemma spawn_fetchDashboardData_eq (baseURL : string) (now : Date) (w : World) :
  spawn (fetchDashboardData baseURL) now w
  = set_in_flight (in_flight w ++ [first_request baseURL]) w.
Proof. destruct w as [s c i l]. reflexivity. Qed.

(** X8: with two polls in flight, the state shows the response that
    arrived last, not the one that was requested last: when the poll
    started second is answered first with [d2] and the poll started
    first is then answered with [d1], the dashboard ends up showing
    [d1]. *)
Theorem last_response_wins
        (env : Env) (w : World) (now : Date)
        (h1 h2 : FetchOutcome) (d1 d2 : DashboardData) (ta tb : Date) :
  let baseURL := API_BASE_URL env in
  let n := List.length (in_flight w) in
  let both := spawn (fetchDashboardData baseURL) now
                (spawn (fetchDashboardData baseURL) now w) in
  let second_answered :=
    steps env [(Resolve (S n) h2, ta); (Resolve (S n) (ok_with d2), ta)] both in
  let first_answered :=
    steps env [(Resolve n h1, tb); (Resolve n (ok_with d1), tb)]
      second_answered in
  dashboardData (ui second_answered) = JObject d2
  /\ lastUpdated (ui second_answered) = Some ta
  /\ dashboardData (ui first_answered) = JObject d1
  /\ lastUpdated (ui first_answered) = Some tb
  /\ in_flight first_answered = in_flight w.
Proof.
  intros baseURL n both second_answered first_answered.
  assert (Hok : response_ok 200 = true) by reflexivity.
  set (w1 := spawn (fetchDashboardData baseURL) now w).
  assert (Hn : S n = List.length (in_flight w1)).
  { unfold w1. rewrite spawn_fetchDashboardData_eq.
    destruct w as [s c i l]. simpl. rewrite length_app. simpl.
    unfold n. simpl. lia. }
  assert (H2 : second_answered
               = spawn (fetchDashboardData baseURL) now
                   {| ui := {| dashboardData := JObject d2;
                               loading := false;
                               error := None;
                               isPolling := isPolling (ui w);
                               lastUpdated := Some ta;
                               connectionStatus :=
                                 or_else (connection_status d2) "connected";
                               currentAudio := currentAudio (ui w) |};
                      console := console w ++ health_log h2;
                      interval := interval w;
                      in_flight := in_flight w |}).
  { unfold second_answered, both. fold w1. rewrite Hn. unfold ok_with.
    unfold baseURL. rewrite poll_succeeded by exact Hok.
    unfold w1. rewrite !spawn_fetchDashboardData_eq.
    destruct w as [s c i l]. reflexivity. }
  split; [rewrite H2, spawn_fetchDashboardData_eq; reflexivity |].
  split; [rewrite H2, spawn_fetchDashboardData_eq; reflexivity |].
  unfold first_answered. rewrite H2. unfold ok_with, n, baseURL.
  match goal with
  | |- context [spawn _ _ ?w0] =>
      change (List.length (in_flight w)) with (List.length (in_flight w0))
  end.
  rewrite poll_succeeded by exact Hok. repeat split.
Qed.

(** X9: pausing starts no request; pausing and resuming re-arms the
    timer and starts exactly one poll at once, without waiting for the
    first tick.  Nothing else of the state changes. *)
Theorem pause_then_resume
        (env : Env) (w : World) (now1 now2 : Date) :
  isPolling (ui w) = true ->
  interval w = true ->
  let paused := step env TogglePolling now1 w in
  let resumed := step env TogglePolling now2 paused in
  requests_in_flight paused = requests_in_flight w
  /\ isPolling (ui paused) = false
  /\ interval paused = false
  /\ ui resumed = ui w
  /\ interval resumed = true
  /\ requests_in_flight resumed
     = (requests_in_flight w ++
        [((API_BASE_URL env ++ "/api/health")%string, GET)])%list.
Proof.
  destruct w as [[data ld err pol upd conn aud] c i l]. simpl.
  intros -> ->. unfold requests_in_flight. simpl.
  rewrite map_app. repeat split.
Qed.

Lemma pause_then_resume_witness :
  isPolling (ui mounted) = true
  /\ interval mounted = true
  /\ ui (step dev_env TogglePolling t2 (step dev_env TogglePolling t1 mounted))
     = ui mounted.
Proof.
  split; [reflexivity |]. split; [reflexivity |].
  exact (proj1 (proj2 (proj2 (proj2
           (pause_then_resume dev_env mounted t1 t2 eq_refl eq_refl))))).
Defined.

(** ** The transport adapter *)

(** X10: for every endpoint other than the dashboard-data one (the
    health probe, the two commands, the latest-audio lookup), [request]
    sends one request to the base origin followed by the endpoint and
    hands its result through: a failure of any kind is written to the
    console once and rethrown with its message unchanged; a 2xx response
    with a JSON body returns that body without a word. *)
Theorem request_rethrows_elsewhere
        (baseURL endpoint : string) (m : Method)
        (o : FetchOutcome) (now : Date) (w : World) :
  endpoint <> dashboard_endpoint ->
  exists k,
    run (request baseURL endpoint m) now w
    = (w, Awaiting (baseURL ++ endpoint) m k)
    /\ (forall e,
          request_error o = Some e ->
          run (k o) now w
          = (log (LogError ("API request failed for " ++ endpoint ++ ":") e) w,
             Threw e))
    /\ (forall code j,
          o = Response code (GoodJson j) ->
          response_ok code = true ->
          run (k o) now w = (w, Returned j)).
Proof.
  intros Hne. apply String.eqb_neq in Hne.
  eexists. split; [reflexivity |]. split.
  - intros e He. destruct o as [e' | code [e' | j]]; simpl in He |- *;
      try destruct (response_ok code); simpl in He |- *;
      try discriminate He; injection He as <-; rewrite Hne; reflexivity.
  - intros code j -> Hok. simpl. rewrite Hok. reflexivity.
Qed.

Lemma request_rethrows_elsewhere_witness :
  "/api/audio/dev1/latest" <> dashboard_endpoint
  /\ exists k,
       run (getLatestAudio "http://localhost:5000" "dev1") t0 initial_world
       = (initial_world,
          Awaiting "http://localhost:5000/api/audio/dev1/latest" GET k).
Proof.
  split; [discriminate |].
  destruct (request_rethrows_elsewhere "http://localhost:5000"
              "/api/audio/dev1/latest" GET network_down t0 initial_world
              (fun H => @eq_ind _ "/api/audio/dev1/latest"
                          (fun s => match s with
                                    | String _ (String _ (String _ (String _
                                        (String _ (String "a" _))))) => True
                                    | _ => False
                                    end) I dashboard_endpoint H))
    as [k [Hk _]].
  exists k. exact Hk.
Defined.

(** X11: the origin of the adapter is never empty: an override that is
    set to the empty string counts as not set, in production builds and
    in all others. *)
Theorem getApiUrl_never_empty (node vps api : option string) :
  getApiUrl (mkEnv node vps api) <> EmptyString
  /\ getApiUrl (mkEnv node (Some EmptyString) (Some EmptyString))
     = getApiUrl (mkEnv node None None).
Proof.
  unfold getApiUrl. simpl.
  destruct (strict_eq node "production");
    destruct vps as [[| c s] |]; destruct api as [[| c' s'] |]; simpl;
    split; try reflexivity; discriminate.
Qed.

(** ** More on the device list *)

Lemma to_double_close (z : Z) : (Z.abs (to_double z - z) <= 1)%Z.
Proof.
  unfold to_double.
  destruct (Z.abs z <=? 2 ^ 53)%Z; [lia |].
  destruct (Z.even z); [lia |].
  destruct (z mod 4 =? 3)%Z; lia.
Qed.

Lemma to_double_exact (z : Z) :
  (Z.abs z <= 2 ^ 53)%Z -> to_double z = z.
Proof.
  intros H. unfold to_double.
  destruct (Z.leb_spec (Z.abs z) (2 ^ 53)) as [_ | Hgt]; [reflexivity | lia].
Qed.

Lemma to_double_minute (z : Z) : (60000 <= z)%Z -> (60000 <= to_double z)%Z.
Proof.
  intros H. unfold to_double.
  assert (Hp : (2 ^ 53 = 9007199254740992)%Z) by reflexivity.
  destruct (Z.leb_spec (Z.abs z) (2 ^ 53)) as [_ | Hgt]; [exact H |].
  destruct (Z.even z); [exact H |].
  destruct (z mod 4 =? 3)%Z; lia.
Qed.

Lemma formatLastSeen_thresholds (now : Date) (ms : Z) :
  let d := to_double (epoch_ms now - ms) in
  formatLastSeen now (SeenAt ms)
  = if (d <? 60000)%Z then "Just now"
    else if (d <? 3600000)%Z
         then number_to_string (d / 60000) ++ "m ago"
         else if (d <? 86400000)%Z
              then number_to_string (d / 3600000) ++ "h ago"
              else number_to_string (d / 86400000) ++ "d ago".
Proof.
  intros d.
  unfold formatLastSeen, num_floor_div, num_lt, num_to_string. fold d.
  assert (Hh : (d / 60000 / 60 = d / 3600000)%Z)
    by (rewrite Z.div_div by lia; reflexivity).
  assert (Hd : (d / 60000 / 60 / 24 = d / 86400000)%Z)
    by (rewrite !Z.div_div by lia; reflexivity).
  rewrite Hd, Hh.
  assert (H1 : (d / 60000 <? 1)%Z = (d <? 60000)%Z).
  { destruct (Z.ltb_spec d 60000) as [H | H].
    - apply Z.ltb_lt.
      assert (d / 60000 < 1)%Z by (apply Z.div_lt_upper_bound; lia). lia.
    - apply Z.ltb_ge.
      assert (1 <= d / 60000)%Z by (apply Z.div_le_lower_bound; lia). lia. }
  assert (H2 : (d / 60000 <? 60)%Z = (d <? 3600000)%Z).
  { destruct (Z.ltb_spec d 3600000) as [H | H].
    - apply Z.ltb_lt. apply Z.div_lt_upper_bound; lia.
    - apply Z.ltb_ge. apply Z.div_le_lower_bound; lia. }
  assert (H3 : (d / 3600000 <? 24)%Z = (d <? 86400000)%Z).
  { destruct (Z.ltb_spec d 86400000) as [H | H].
    - apply Z.ltb_lt. apply Z.div_lt_upper_bound; lia.
    - apply Z.ltb_ge. apply Z.div_le_lower_bound; lia. }
  rewrite H1, H2, H3. reflexivity.
Qed.

(** X12: [formatLastSeen] by the age of the timestamp, for the time
    values of dates.  The age [d] is the difference in milliseconds as
    the engine computes it: the exact difference when that is at most
    2^53 in size, and the nearest double, within 1 of it, beyond.  A
    missing timestamp gives "Never"; one that is not a date gives
    "NaNd ago"; an age under a minute, a timestamp in the future
    included, gives "Just now"; then whole minutes under an hour, whole
    hours under a day, and whole days, each rounded down (the nested
    roundings of the code amount to one division). *)
Theorem formatLastSeen_by_age (now : Date) (ms : Z) :
  valid_time (epoch_ms now) ->
  valid_time ms ->
  let age := (epoch_ms now - ms)%Z in
  let d := to_double age in
  formatLastSeen now NoTimestamp = "Never"
  /\ formatLastSeen now InvalidDate = "NaNd ago"
  /\ formatLastSeen now (SeenAt ms)
     = (if (d <? 60000)%Z then "Just now"
        else if (d <? 3600000)%Z
             then number_to_string (d / 60000) ++ "m ago"
             else if (d <? 86400000)%Z
                  then number_to_string (d / 3600000) ++ "h ago"
                  else number_to_string (d / 86400000) ++ "d ago")
  /\ (Z.abs (d - age) <= 1)%Z
  /\ ((Z.abs age <= 2 ^ 53)%Z -> d = age).
Proof.
  intros _ _ age d. split; [reflexivity |]. split; [reflexivity |].
  split; [apply formatLastSeen_thresholds |].
  split; [apply to_double_close | apply to_double_exact].
Qed.

Lemma formatLastSeen_by_age_witness :
  valid_time (epoch_ms (mkDate 8640000000000000 "+275760-09-13T00:00:00.000Z"))
  /\ valid_time (-8639999999999999)
  /\ formatLastSeen (mkDate 8640000000000000 "+275760-09-13T00:00:00.000Z")
       (SeenAt (-8639999999999999))
     = "200000000d ago".
Proof.
  assert (H1 : valid_time
                 (epoch_ms (mkDate 8640000000000000
                              "+275760-09-13T00:00:00.000Z")))
    by (vm_compute; discriminate).
  assert (H2 : valid_time (-8639999999999999)) by (vm_compute; discriminate).
  split; [exact H1 |]. split; [exact H2 |].
  exact (proj1 (proj2 (proj2
           (formatLastSeen_by_age
              (mkDate 8640000000000000 "+275760-09-13T00:00:00.000Z")
              (-8639999999999999) H1 H2)))).
Defined.

(** X13: the figure in a "last seen" label is never out of range: for a
    timestamp at least a minute old the label is a count of minutes from
    1 to 59, of hours from 1 to 23, or of days from 1 on; "0m ago",
    "60m ago" and "24h ago" do not occur. *)
Theorem formatLastSeen_figure_in_range (now : Date) (ms : Z) :
  (60000 <= epoch_ms now - ms)%Z ->
  exists (n : Z) (unit_ago : string),
    formatLastSeen now (SeenAt ms) = number_to_string n ++ unit_ago
    /\ (1 <= n)%Z
    /\ ((unit_ago = "m ago" /\ (n <= 59)%Z)
        \/ (unit_ago = "h ago" /\ (n <= 23)%Z)
        \/ unit_ago = "d ago").
Proof.
  intros Hd. apply to_double_minute in Hd.
  rewrite formatLastSeen_thresholds.
  set (d := to_double (epoch_ms now - ms)) in *.
  destruct (Z.ltb_spec d 60000) as [H0 | H0]; [lia |].
  destruct (Z.ltb_spec d 3600000) as [H1 | H1];
    [| destruct (Z.ltb_spec d 86400000) as [H2 | H2]].
  - exists (d / 60000)%Z, "m ago". split; [reflexivity |].
    split; [apply Z.div_le_lower_bound; lia |].
    left. split; [reflexivity |].
    assert (d / 60000 < 60)%Z by (apply Z.div_lt_upper_bound; lia). lia.
  - exists (d / 3600000)%Z, "h ago". split; [reflexivity |].
    split; [apply Z.div_le_lower_bound; lia |].
    right. left. split; [reflexivity |].
    assert (d / 3600000 < 24)%Z by (apply Z.div_lt_upper_bound; lia). lia.
  - exists (d / 86400000)%Z, "d ago". split; [reflexivity |].
    split; [apply Z.div_le_lower_bound; lia |]. right. right. reflexivity.
Qed.

Lemma formatLastSeen_figure_in_range_witness :
  (60000 <= epoch_ms t2 - (-7200000))%Z
  /\ exists (n : Z) (unit_ago : string),
       formatLastSeen t2 (SeenAt (-7200000)) = number_to_string n ++ unit_ago
       /\ (1 <= n)%Z
       /\ ((unit_ago = "m ago" /\ (n <= 59)%Z)
           \/ (unit_ago = "h ago" /\ (n <= 23)%Z)
           \/ unit_ago = "d ago").
Proof.
  split; [vm_compute; discriminate |].
  apply (formatLastSeen_figure_in_range t2 (-7200000)). vm_compute. discriminate.
Defined.



Lemma filter_keeps_ids_distinct (keep : User -> bool) (devices : list User) :
  NoDup (map user_id devices) ->
  NoDup (map user_id (filter keep devices)).
Proof.
  induction devices as [| u rest IH]; simpl; intros Hids; [constructor |].
  inversion Hids as [| id ids Hfresh Hrest]; subst.
  destruct (keep u); simpl; [| now apply IH].
  constructor; [| now apply IH].
  intros Hin. apply Hfresh. apply in_map_iff in Hin.
  destruct Hin as [v [Hv Hin]]. apply filter_In in Hin.
  apply in_map_iff. exists v. tauto.
Qed.

(** X15: filtering keeps the React keys of the cards unique: when no two
    devices of [users] share a [user_id], no two devices of the filtered
    list do. *)
Theorem filteredUsers_keeps_keys_unique
        (unicode_lower : string -> string)
        (users : list User) (searchTerm statusFilter : string) :
  NoDup (map user_id users) ->
  NoDup (map user_id (filteredUsers unicode_lower users searchTerm statusFilter)).
Proof.
  intros H. unfold filteredUsers.
  destruct searchTerm; destruct (negb (String.eqb statusFilter "all"));
    repeat apply filter_keeps_ids_distinct; exact H.
Qed.

Lemma filteredUsers_keeps_keys_unique_witness :
  NoDup (map user_id [dev1; dev2; dev3])
  /\ NoDup (map user_id
              (filteredUsers ascii_engine [dev1; dev2; dev3] "dev" "idle")).
Proof.
  assert (H : NoDup (map user_id [dev1; dev2; dev3])).
  { simpl. repeat constructor; simpl; intuition discriminate. }
  split; [exact H |].
  exact (filteredUsers_keeps_keys_unique ascii_engine [dev1; dev2; dev3]
           "dev" "idle" H).
Defined.

Lemma filter_comm {A : Type} (p q : A -> bool) (l : list A) :
  filter p (filter q l) = filter q (filter p l).
Proof.
  rewrite !filter_twice. apply filter_ext. intros x. apply andb_comm.
Qed.

Lemma filter_idem {A : Type} (p : A -> bool) (l : list A) :
  filter p (filter p l) = filter p l.
Proof.
  rewrite filter_twice. apply filter_ext. intros x. now destruct (p x).
Qed.

(** X16: filtering is idempotent, and the search and the status filter
    can be applied one after the other in either order: filtering the
    filtered list again changes nothing, and the list for a term and a
    status is the list for the status alone searched for the term, or
    the list for the term alone filtered by the status. *)
Theorem filteredUsers_composes
        (unicode_lower : string -> string)
        (users : list User) (searchTerm statusFilter : string) :
  let result := filteredUsers unicode_lower users searchTerm statusFilter in
  filteredUsers unicode_lower result searchTerm statusFilter = result
  /\ filteredUsers unicode_lower
       (filteredUsers unicode_lower users searchTerm "all")
       EmptyString statusFilter
     = result
  /\ filteredUsers unicode_lower
       (filteredUsers unicode_lower users EmptyString statusFilter)
       searchTerm "all"
     = result.
Proof.
  unfold filteredUsers.
  destruct searchTerm as [| c s];
    destruct (negb (String.eqb statusFilter "all")); simpl;
    repeat split;
    rewrite ?filter_idem; try reflexivity.
  - rewrite (filter_comm (search_callback _ _) _ (filter _ users)), !filter_idem.
    reflexivity.
  - apply filter_comm.
Qed.

(** X17: the text "No devices connected yet" is shown for an empty
    [users] only: when the filtered list is empty and the empty list is
    not blamed on the criteria (no term, filter [all]), [users] itself
    is empty. *)
Theorem no_devices_text_is_truthful
        (unicode_lower : string -> string)
        (users : list User) (searchTerm statusFilter : string) :
  filteredUsers unicode_lower users searchTerm statusFilter = [] ->
  empty_list_blames_criteria searchTerm statusFilter = false ->
  users = [].
Proof.
  unfold filteredUsers, empty_list_blames_criteria.
  destruct searchTerm as [| c s]; [| discriminate].
  intros H Hb. rewrite Hb in H. exact H.
Qed.

Lemma no_devices_text_is_truthful_witness :
  filteredUsers ascii_engine [] EmptyString "all" = []
  /\ empty_list_blames_criteria EmptyString "all" = false
  /\ @nil User = [].
Proof.
  split; [reflexivity |]. split; [reflexivity |].
  exact (no_devices_text_is_truthful ascii_engine [] EmptyString "all"
           eq_refl eq_refl).
Defined.

(** X18: a search term that occurs, case being ignored, in the id and
    the label of no device leaves the list empty, whatever the status
    filter.  (Ignoring case is what the lower-casing of the engine
    makes of it, for ASCII and other text alike.) *)
Theorem unmatched_term_gives_empty_list
        (unicode_lower : string -> string)
        (users : list User) (searchTerm statusFilter : string) :
  unicode_lower EmptyString = EmptyString ->
  (forall u, In u users -> ~ spec_matches_search unicode_lower searchTerm u) ->
  filteredUsers unicode_lower users searchTerm statusFilter = [].
Proof.
  intros H0 Hno. unfold filteredUsers.
  destruct searchTerm as [| c s].
  - destruct users as [| u l].
    + destruct (negb (String.eqb statusFilter "all")); reflexivity.
    + exfalso. apply (Hno u); [now left |]. now apply empty_term_matches.
  - assert (Hs : filter (search_callback unicode_lower (String c s)) users = []).
    { induction users as [| u l IH]; simpl; [reflexivity |].
      destruct (search_callback unicode_lower (String c s) u) eqn:Hu.
      - exfalso. apply (Hno u); [now left |].
        now apply search_callback_iff.
      - apply IH. intros v Hv. apply Hno. now right. }
    rewrite Hs. destruct (negb (String.eqb statusFilter "all")); reflexivity.
Qed.

Lemma unmatched_term_gives_empty_list_witness :
  ascii_engine EmptyString = EmptyString
  /\ (forall u, In u [dev1; dev2; dev3] ->
                ~ spec_matches_search ascii_engine "zzz" u)
  /\ filteredUsers ascii_engine [dev1; dev2; dev3] "zzz" "idle" = [].
Proof.
  assert (H0 : ascii_engine EmptyString = EmptyString) by reflexivity.
  assert (Hno : forall u, In u [dev1; dev2; dev3] ->
                          ~ spec_matches_search ascii_engine "zzz" u).
  { intros u Hin Hm. apply (search_callback_iff ascii_engine "zzz" u H0) in Hm.
    destruct Hin as [<- | [<- | [<- | []]]]; discriminate Hm. }
  split; [exact H0 |]. split; [exact Hno |].
  exact (unmatched_term_gives_empty_list ascii_engine [dev1; dev2; dev3]
           "zzz" "idle" H0 Hno).
Defined.

(** ** The buttons of a device card *)

(** X19: every button a device card renders does something.  The play
    button is rendered for a device with audio only, so that pressing it
    always opens the session of that device; the stop button is rendered
    for a listening device and sends the stop command, and any other
    device gets the listen button, which sends the start command. *)
Theorem card_buttons_always_act
        (env : Env) (user : User) (action : string) (now : Date) (w : World) :
  In action (card_actions user) ->
  exists ev,
    handleUserAction user action = Some ev
    /\ match ev with
       | PlayAudio u =>
           u = user
           /\ exists a, currentAudio (ui (step env ev now w)) = Some a
                        /\ audio_user a = user_id user
       | StopListening userId =>
           userId = user_id user /\ status user = "listening"
       | StartListening userId =>
           userId = user_id user /\ status user <> "listening"
       | _ => False
       end.
Proof.
  unfold card_actions. intros Hin. apply in_app_or in Hin.
  destruct Hin as [Hin | [Hin | []]].
  - destruct (truthy (latest_audio user)) eqn:Ht; [| contradiction].
    destruct Hin as [<- | []]. exists (PlayAudio user).
    split; [reflexivity |]. split; [reflexivity |].
    destruct w as [[data ld err pol upd conn aud] c i l].
    unfold step, spawn, handlePlayAudio.
    destruct (latest_audio user) as [[| ch rest] |]; try discriminate Ht.
    simpl. eexists. split; reflexivity.
  - destruct (String.eqb_spec (status user) "listening") as [Hs | Hs];
      subst action.
    + exists (StopListening (user_id user)). repeat split. exact Hs.
    + exists (StartListening (user_id user)). repeat split. exact Hs.
Qed.

Lemma card_buttons_always_act_witness :
  In "play" (card_actions dev2)
  /\ exists ev, handleUserAction dev2 "play" = Some ev.
Proof.
  assert (H : In "play" (card_actions dev2)) by (left; reflexivity).
  split; [exact H |].
  destruct (card_buttons_always_act dev_env dev2 "play" t1 mounted H)
    as [ev [Hev _]].
  exists ev. exact Hev.
Defined.

(** X20: the uploads of a card add up: at most three uploads are
    listed, they are the first ones in their order, and the listed ones
    and the "+n more" figure together make the "Recordings" figure; the
    "+n more" line appears exactly when there are more than three. *)
Theorem uploads_add_up (uploads : option (list Upload)) :
  List.length (shown_uploads uploads)
  + match more_uploads uploads with Some n => n | None => 0 end
  = recordings_count uploads
  /\ List.length (shown_uploads uploads) <= 3
  /\ (exists rest,
        match uploads with Some l => l | None => [] end
        = (shown_uploads uploads ++ rest)%list)
  /\ match more_uploads uploads with
     | Some n => 3 < recordings_count uploads /\ 0 < n
     | None => recordings_count uploads <= 3
     end.
Proof.
  destruct uploads as [l |];
    unfold shown_uploads, more_uploads, recordings_count.
  - pose proof (length_firstn 3 l) as Hf.
    assert (Hrest : exists rest, l = (firstn 3 l ++ rest)%list)
      by (exists (skipn 3 l); symmetry; apply firstn_skipn).
    destruct (Nat.ltb_spec 3 (List.length l)) as [H | H];
      (split; [lia |]); (split; [lia |]); (split; [exact Hrest |]); lia.
  - simpl. split; [reflexivity |]. split; [lia |].
    split; [exists []; reflexivity | lia].
Qed.

(** ** The file name of an audio session *)

Lemma no_slash_append (a b : string) :
  no_slash (a ++ b) = no_slash a && no_slash b.
Proof.
  induction a as [| c a IH]; simpl; [reflexivity |].
  rewrite IH. apply andb_assoc.
Qed.

Lemma string_append_assoc (a b c : string) :
  ((a ++ b) ++ c = a ++ (b ++ c))%string.
Proof.
  induction a as [| x a IH]; simpl; [reflexivity | now rewrite IH].
Qed.

Lemma last_segment_from_spec (s acc : string) :
  no_slash acc = true ->
  no_slash (last_segment_from acc s) = true
  /\ exists pre,
       (acc ++ s = pre ++ last_segment_from acc s)%string
       /\ (pre = EmptyString \/ exists p, pre = (p ++ "/")%string).
Proof.
  revert acc. induction s as [| c s IH]; intros acc Hacc; simpl.
  - split; [exact Hacc |]. exists EmptyString. split; [| now left].
    simpl. clear. induction acc as [| x a IHa]; simpl; [| rewrite IHa];
      reflexivity.
  - destruct (Ascii.eqb_spec c "/"%char) as [-> | Hc].
    + destruct (IH EmptyString eq_refl) as [Hn [pre [Hs Hp]]].
      split; [exact Hn |]. simpl in Hs.
      exists (acc ++ "/" ++ pre)%string. split.
      * rewrite !string_append_assoc. simpl. now rewrite <- Hs.
      * right. destruct Hp as [-> | [p ->]].
        -- exists acc. reflexivity.
        -- exists (acc ++ "/" ++ p)%string.
           rewrite !string_append_assoc. reflexivity.
    + assert (Hacc' : no_slash (acc ++ String c EmptyString) = true).
      { rewrite no_slash_append, Hacc. simpl.
        destruct (Ascii.eqb_spec c "/"%char); [contradiction | reflexivity]. }
      destruct (IH _ Hacc') as [Hn [pre [Hs Hp]]].
      split; [exact Hn |]. exists pre. split; [| exact Hp].
      rewrite <- Hs, string_append_assoc. reflexivity.
Qed.

(** X21: the file name [handlePlayAudio] shows for a device with audio
    is the part of the audio path after its last slash: it has no slash,
    and the path is the file name alone or something that ends in a
    slash followed by the file name.  So the URL of the session ends in
    the file name. *)
Theorem audio_filename_is_last_segment
        (env : Env) (user : User) (now : Date) (w : World) :
  truthy (latest_audio user) = true ->
  exists a pre,
    currentAudio (ui (step env (PlayAudio user) now w)) = Some a
    /\ no_slash (audio_filename a) = true
    /\ latest_audio user = Some (pre ++ audio_filename a)
    /\ audio_url a = playback_base_url env ++ pre ++ audio_filename a
    /\ (pre = EmptyString \/ exists p, pre = (p ++ "/")%string).
Proof.
  destruct w as [[data ld err pol upd conn aud] c i l].
  unfold step, spawn, handlePlayAudio.
  destruct (latest_audio user) as [[| ch rest] |]; simpl;
    intros Ht; try discriminate Ht.
  destruct (last_segment_from_spec (String ch rest) EmptyString eq_refl)
    as [Hn [pre [Hs Hp]]].
  eexists. exists pre.
  split; [reflexivity |]. split; [exact Hn |].
  split; [exact (f_equal Some Hs) |].
  split; [exact (f_equal (fun t => playback_base_url env ++ t)%string Hs) |].
  exact Hp.
Qed.

Lemma audio_filename_is_last_segment_witness :
  truthy (latest_audio dev2) = true
  /\ exists a pre,
       currentAudio (ui (step dev_env (PlayAudio dev2) t1 mounted)) = Some a
       /\ no_slash (audio_filename a) = true
       /\ latest_audio dev2 = Some (pre ++ audio_filename a)
       /\ audio_url a = playback_base_url dev_env ++ pre ++ audio_filename a
       /\ (pre = EmptyString \/ exists p, pre = (p ++ "/")%string).
Proof.
  split; [reflexivity |].
  exact (audio_filename_is_last_segment dev_env dev2 t1 mounted eq_refl).
Defined.
